(** * todo_scheduler: the task store and its schedule index

    A shallow embedding of [src/todo_scheduler.py] (class
    [TodoWithScheduler]) and the properties of its operations.

    Conventions of the embedding.
    - A Python [str] is a [string]; its characters are the code points
      below 256.
    - A Python [int] is a [Z].
    - A Python [dict] keeps its keys in insertion order: it is an
      association list whose keys are pairwise distinct ([dict_wf]).
    - A task, the dict with the keys id, task, priority, completed and
      created_at, is the record [Task].
    - The methods mutate [self]; here each one takes the store and returns
      the new store together with its return value.
    - [datetime.now()] is an argument ([now], already formatted).
    - The [print] calls of the store operations change neither the store
      nor the returned value and are left out; those of [load_data] are
      kept, as the list of printed lines. *)

From Stdlib Require Import List String Ascii ZArith Bool Lia.
From Stdlib Require Import DecimalString DecimalZ.
From Stdlib Require Import Permutation Sorted.
Import ListNotations.

Local Open Scope list_scope.

(** ** Python lists of ints *)

Module PyList.

(** [x in l] *)
Fixpoint contains (x : Z) (l : list Z) : bool :=
  match l with
  | [] => false
  | y :: l' => if Z.eqb y x then true else contains x l'
  end.

(** [l.remove(x)]: drops the first occurrence of [x].  Python raises
    ValueError when [x] is absent; every call in the source is guarded by
    [if x in l], so that case is not reached and [l] is returned as is. *)
Fixpoint remove (x : Z) (l : list Z) : list Z :=
  match l with
  | [] => []
  | y :: l' => if Z.eqb y x then l' else y :: remove x l'
  end.

(** [not l]: the list is empty *)
Definition is_empty (l : list Z) : bool :=
  match l with [] => true | _ :: _ => false end.

End PyList.

(** ** Python dicts with [str] keys *)

Module PyDict.
Section Dict.
Context {V : Type}.

Definition dict := list (string * V).

(** [d.get(k)] *)
Fixpoint get (k : string) (d : dict) : option V :=
  match d with
  | [] => None
  | (k', v) :: d' => if String.eqb k' k then Some v else get k d'
  end.

(** [k in d] *)
Definition mem (k : string) (d : dict) : bool :=
  match get k d with Some _ => true | None => false end.

(** [d[k] = v]: an existing key keeps its position, a new key goes to
    the end. *)
Fixpoint set (k : string) (v : V) (d : dict) : dict :=
  match d with
  | [] => [(k, v)]
  | (k', v') :: d' =>
      if String.eqb k' k then (k', v) :: d' else (k', v') :: set k v d'
  end.

(** [del d[k]] *)
Fixpoint del (k : string) (d : dict) : dict :=
  match d with
  | [] => []
  | (k', v') :: d' =>
      if String.eqb k' k then d' else (k', v') :: del k d'
  end.

(** [list(d.keys())] *)
Definition keys (d : dict) : list string := map fst d.

(** The keys of a dict are pairwise distinct. *)
Definition dict_wf (d : dict) : Prop := NoDup (keys d).

End Dict.
Arguments dict : clear implicits.
End PyDict.

(** ** [datetime.strptime(s, "%H:%M")] and [time.strftime("%H:%M")] *)

Module Time.

Definition is_digit (c : ascii) : bool :=
  (48 <=? nat_of_ascii c)%nat && (nat_of_ascii c <=? 57)%nat.

(** a character class [[lo-hi]] of digits, given by the digits' values *)
Definition in_class (lo hi : nat) (c : ascii) : bool :=
  (48 + lo <=? nat_of_ascii c)%nat && (nat_of_ascii c <=? 48 + hi)%nat.

Definition digit_val (c : ascii) : Z := Z.of_nat (nat_of_ascii c - 48).

(** One regex group: every way it matches a prefix of the input, in the
    order the backtracking matcher tries them, each with the [int] of the
    matched text and the rest of the input. *)
Definition matches := list (Z * list ascii).

Definition two_digits (p1 p2 : ascii -> bool) (s : list ascii) : matches :=
  match s with
  | c1 :: c2 :: r =>
      if p1 c1 && p2 c2 then [((10 * digit_val c1 + digit_val c2)%Z, r)]
      else []
  | _ => []
  end.

Definition one_digit (s : list ascii) : matches :=
  match s with
  | c1 :: r => if is_digit c1 then [(digit_val c1, r)] else []
  | _ => []
  end.

(** [%H] is [(?P<H>2[0-3]|[0-1]\d|\d)] *)
Definition re_H (s : list ascii) : matches :=
  two_digits (in_class 2 2) (in_class 0 3) s
  ++ two_digits (in_class 0 1) is_digit s
  ++ one_digit s.

(** [%M] is [(?P<M>[0-5]\d|\d)] *)
Definition re_M (s : list ascii) : matches :=
  two_digits (in_class 0 5) is_digit s ++ one_digit s.

(** the literal [:] of the format *)
Definition re_colon (s : list ascii) : list (list ascii) :=
  match s with
  | c :: r => if Ascii.eqb c ":" then [r] else []
  | [] => []
  end.

(** [format_regex.match(data_string)]: the first match of
    [%H:%M] at the start of the input, as hour, minute and the
    unmatched rest. *)
Definition re_match (s : list ascii) : option (Z * Z * list ascii) :=
  hd_error
    (flat_map (fun '(h, r1) =>
       flat_map (fun r2 =>
         map (fun '(m, r3) => (h, m, r3)) (re_M r2)) (re_colon r1))
       (re_H s)).

(** The hour with the colon after it: the matches of [%H] that a colon
    follows, each with what follows the colon. *)
Definition hour_colon (s : list ascii) : matches :=
  flat_map (fun '(h, r1) => map (fun r2 => (h, r2)) (re_colon r1)) (re_H s).

(** [datetime.strptime(time_str, "%H:%M").time()]: [None] is the
    ValueError, raised when the regex does not match or when it leaves
    part of the input unmatched ("unconverted data remains"). *)
Definition strptime (time_str : string) : option (Z * Z) :=
  match re_match (list_ascii_of_string time_str) with
  | Some (h, m, []) => Some (h, m)
  | Some (_, _, _ :: _) => None
  | None => None
  end.

Definition digit_char (n : Z) : ascii := ascii_of_nat (48 + Z.to_nat n).

(** two digits, zero padded *)
Definition pad2 (n : Z) (rest : string) : string :=
  String (digit_char (n / 10)) (String (digit_char (n mod 10)) rest).

(** [t.strftime("%H:%M")] *)
Definition strftime (t : Z * Z) : string :=
  pad2 (fst t) (String ":" (pad2 (snd t) EmptyString)).

End Time.

(** ** The store *)

Record Task := mkTask {
  id : Z;
  task : string;
  priority : string;
  completed : bool;
  created_at : string
}.

Record TodoWithScheduler := mkTodo {
  tasks : list Task;
  schedule : PyDict.dict (list Z)
}.

(** The store of [__init__], before [load_data] runs. *)
Definition empty_store : TodoWithScheduler :=
  {| tasks := []; schedule := [] |}.

(** [schedule_task(task_id, time_str)] *)
Definition schedule_task (self : TodoWithScheduler) (task_id : Z)
    (time_str : string) : TodoWithScheduler * bool :=
  match Time.strptime time_str with
  | Some t =>
      let task_time := Time.strftime t in
      let sched1 :=
        if negb (PyDict.mem task_time (schedule self))
        then PyDict.set task_time [] (schedule self)
        else schedule self in
      let slot :=
        match PyDict.get task_time sched1 with Some l => l | None => [] end in
      let sched2 :=
        if negb (PyList.contains task_id slot)
        then PyDict.set task_time (slot ++ [task_id]) sched1
        else sched1 in
      ({| tasks := tasks self; schedule := sched2 |}, true)
  | None => (self, false)
  end.

(** [if scheduled_time:] on an optional [str] *)
Definition truthy (o : option string) : option string :=
  match o with
  | Some EmptyString => None
  | _ => o
  end.

(** [add_task(task, priority, scheduled_time)] *)
Definition add_task (now : string) (self : TodoWithScheduler)
    (task priority : string) (scheduled_time : option string)
    : TodoWithScheduler * Z :=
  let task_id := (Z.of_nat (List.length (tasks self)) + 1)%Z in
  let new_task :=
    {| id := task_id; task := task; priority := priority;
       completed := false; created_at := now |} in
  let self1 :=
    {| tasks := tasks self ++ [new_task]; schedule := schedule self |} in
  let self2 :=
    match truthy scheduled_time with
    | Some t => fst (schedule_task self1 task_id t)
    | None => self1
    end in
  (self2, task_id).

(** The task [add_task] appends. *)
Definition new_task (now : string) (self : TodoWithScheduler)
    (task priority : string) : Task :=
  {| id := Z.of_nat (List.length (tasks self)) + 1; task := task;
     priority := priority; completed := false; created_at := now |}.

(** The body of the loop shared by [remove_task] and [unschedule_task]:
    [if task_id in self.schedule[time_slot]: remove it; delete the slot if
    it is now empty].  The flag tells whether the [if] branch ran. *)
Definition purge_slot (task_id : Z) (time_slot : string)
    (sched : PyDict.dict (list Z)) : PyDict.dict (list Z) * bool :=
  match PyDict.get time_slot sched with
  | Some ids =>
      if PyList.contains task_id ids then
        let ids' := PyList.remove task_id ids in
        if PyList.is_empty ids'
        then (PyDict.del time_slot sched, true)
        else (PyDict.set time_slot ids' sched, true)
      else (sched, false)
  | None => (sched, false)
  end.

(** [for time_slot in list(self.schedule.keys()): ...] over a snapshot of
    the keys, with the [task_found] flag of [unschedule_task]. *)
Fixpoint purge_slots (task_id : Z) (slots : list string)
    (sched : PyDict.dict (list Z)) (task_found : bool)
    : PyDict.dict (list Z) * bool :=
  match slots with
  | [] => (sched, task_found)
  | time_slot :: slots' =>
      let '(sched', hit) := purge_slot task_id time_slot sched in
      purge_slots task_id slots' sched' (hit || task_found)
  end.

(** [for i, task in enumerate(self.tasks): if task["id"] == task_id:
    self.tasks.pop(i)]: the list without its first task of that id, or
    [None] when the loop ends without a match. *)
Fixpoint pop_first (task_id : Z) (l : list Task) : option (list Task) :=
  match l with
  | [] => None
  | t :: l' =>
      if Z.eqb (id t) task_id then Some l'
      else match pop_first task_id l' with
           | Some r => Some (t :: r)
           | None => None
           end
  end.

(** [remove_task(task_id)] *)
Definition remove_task (self : TodoWithScheduler) (task_id : Z)
    : TodoWithScheduler * bool :=
  match pop_first task_id (tasks self) with
  | Some tasks' =>
      let sched := schedule self in
      ({| tasks := tasks';
          schedule := fst (purge_slots task_id (PyDict.keys sched) sched false) |},
       true)
  | None => (self, false)
  end.

(** [task["completed"] = True] *)
Definition with_completed (t : Task) : Task :=
  {| id := id t; task := task t; priority := priority t;
     completed := true; created_at := created_at t |}.

(** The loop of [mark_complete]: sets [completed] on the first task of
    that id and stops; [None] when the loop ends without a match. *)
Fixpoint complete_first (task_id : Z) (l : list Task) : option (list Task) :=
  match l with
  | [] => None
  | t :: l' =>
      if Z.eqb (id t) task_id then
        Some (with_completed t :: l')
      else match complete_first task_id l' with
           | Some r => Some (t :: r)
           | None => None
           end
  end.

(** [mark_complete(task_id)] *)
Definition mark_complete (self : TodoWithScheduler) (task_id : Z)
    : TodoWithScheduler * bool :=
  match complete_first task_id (tasks self) with
  | Some tasks' => ({| tasks := tasks'; schedule := schedule self |}, true)
  | None => (self, false)
  end.

(** [unschedule_task(task_id)] *)
Definition unschedule_task (self : TodoWithScheduler) (task_id : Z)
    : TodoWithScheduler * bool :=
  let sched := schedule self in
  let '(sched', task_found) :=
    purge_slots task_id (PyDict.keys sched) sched false in
  ({| tasks := tasks self; schedule := sched' |}, task_found).

(** ** The shell's reading of a priority (lines 200 to 202 of [main]) *)

(** [c.lower()] on a code point below 256: the letters A to Z and the
    capital letters of Latin-1 move up by 32. *)
Definition lower_char (c : ascii) : ascii :=
  let n := nat_of_ascii c in
  if ((65 <=? n) && (n <=? 90)
      || (192 <=? n) && (n <=? 222) && negb (n =? 215))%nat
  then ascii_of_nat (n + 32) else c.

Fixpoint lower (s : string) : string :=
  match s with
  | EmptyString => EmptyString
  | String c s' => String (lower_char c) (lower s')
  end.

(** [priority = input(...).lower()], then
    [if priority not in ["high", "medium", "low"]: priority = "medium"] *)
Definition menu_priority (input : string) : string :=
  let priority := lower input in
  if existsb (String.eqb priority) ["high"; "medium"; "low"]%string
  then priority else "medium"%string.

(** Choice 1 of the menu: the shell reads the priority, then calls
    [add_task], then [schedule_task] when asked to. *)
Definition menu_add (now : string) (self : TodoWithScheduler)
    (task_input priority_input : string) (time_input : option string)
    : TodoWithScheduler :=
  let '(self1, task_id) :=
    add_task now self task_input (menu_priority priority_input) None in
  match time_input with
  | Some time_str => fst (schedule_task self1 task_id time_str)
  | None => self1
  end.

(** ** Sequences of operations *)

Inductive op :=
| OpAdd (now task priority : string) (scheduled_time : option string)
| OpRemove (task_id : Z)
| OpComplete (task_id : Z)
| OpSchedule (task_id : Z) (time_str : string)
| OpUnschedule (task_id : Z).

(** The store after one operation. *)
Definition step (self : TodoWithScheduler) (o : op) : TodoWithScheduler :=
  match o with
  | OpAdd now t p st => fst (add_task now self t p st)
  | OpRemove i => fst (remove_task self i)
  | OpComplete i => fst (mark_complete self i)
  | OpSchedule i ts => fst (schedule_task self i ts)
  | OpUnschedule i => fst (unschedule_task self i)
  end.

(** The stores reached from the empty one by operations that [allowed]
    admits in the store they are applied to. *)
Inductive reachable_by (allowed : TodoWithScheduler -> op -> Prop)
    : TodoWithScheduler -> Prop :=
| reach_empty : reachable_by allowed empty_store
| reach_step self o :
    reachable_by allowed self -> allowed self o ->
    reachable_by allowed (step self o).

(** The store after a sequence of operations on the empty store. *)
Definition run (ops : list op) : TodoWithScheduler :=
  fold_left step ops empty_store.

Definition any_op (_ : TodoWithScheduler) (_ : op) : Prop := True.

Definition reachable : TodoWithScheduler -> Prop := reachable_by any_op.

(** Some task of the store has this id. *)
Definition has_task (task_id : Z) (self : TodoWithScheduler) : bool :=
  existsb (fun t => Z.eqb (id t) task_id) (tasks self).

(** [schedule_task] is only called with the id of a task of the store. *)
Definition schedules_present (self : TodoWithScheduler) (o : op) : Prop :=
  match o with
  | OpSchedule i _ => has_task i self = true
  | _ => True
  end.

(** The id is in the sequence of that slot. *)
Definition in_slot (task_id : Z) (time_slot : string)
    (self : TodoWithScheduler) : bool :=
  match PyDict.get time_slot (schedule self) with
  | Some ids => PyList.contains task_id ids
  | None => false
  end.

(** Two tasks that differ in [completed] at most. *)
Definition same_but_completed (t t' : Task) : Prop :=
  id t' = id t /\ task t' = task t /\ priority t' = priority t
  /\ created_at t' = created_at t.

(** Every id of every slot is the id of a task of the store. *)
Definition slots_refer_to_tasks (self : TodoWithScheduler) : Prop :=
  forall time_slot ids task_id,
    In (time_slot, ids) (schedule self) -> In task_id ids ->
    has_task task_id self = true.

(** The schedule index of the data model: distinct slots, no slot with an
    empty sequence, no id twice in a slot. *)
Definition schedule_wf (sched : PyDict.dict (list Z)) : Prop :=
  PyDict.dict_wf sched /\
  forall time_slot ids, In (time_slot, ids) sched -> ids <> [] /\ NoDup ids.

(** What a successful [schedule_task] makes of the schedule: a new slot
    at the end, or the id at the end of the slot that is there, unless the
    slot has it. *)
Definition slot_insert (task_id : Z) (time_slot : string)
    (sched : PyDict.dict (list Z)) : PyDict.dict (list Z) :=
  match PyDict.get time_slot sched with
  | None => sched ++ [(time_slot, [task_id])]
  | Some ids =>
      if PyList.contains task_id ids then sched
      else PyDict.set time_slot (ids ++ [task_id]) sched
  end.

(** What the loop of [remove_task] and [unschedule_task] makes of one
    slot. *)
Definition purged_entry (task_id : Z) (e : string * list Z)
    : list (string * list Z) :=
  if PyList.contains task_id (snd e) then
    if PyList.is_empty (PyList.remove task_id (snd e)) then []
    else [(fst e, PyList.remove task_id (snd e))]
  else [e].

(** The cascade of [remove_task] as the spec words it: the id is taken
    out of every slot, the other ids of a slot stay in their order, and
    the slots left with no id are deleted. *)
Definition cascaded (task_id : Z) (sched : PyDict.dict (list Z))
    : PyDict.dict (list Z) :=
  filter (fun e => match snd e with [] => false | _ :: _ => true end)
    (map (fun e => (fst e, filter (fun x => negb (Z.eqb x task_id)) (snd e)))
       sched).

(** The store after a sequence of operations on a given store. *)
Definition run_from (self : TodoWithScheduler) (ops : list op)
    : TodoWithScheduler :=
  fold_left step ops self.

(** ** Time strings, as the spec words them *)

(** Zero-padded two-digit [HH:MM], hour 00 to 23 and minute 00 to 59. *)
Definition strict_HHMM (s : string) : bool :=
  match list_ascii_of_string s with
  | [h1; h2; c; m1; m2] =>
      Time.is_digit h1 && Time.is_digit h2 && Ascii.eqb c ":"
      && Time.is_digit m1 && Time.is_digit m2
      && (10 * Time.digit_val h1 + Time.digit_val h2 <=? 23)%Z
      && (10 * Time.digit_val m1 + Time.digit_val m2 <=? 59)%Z
  | _ => false
  end.

(** The value of a run of one or two digits, when it is at most [bound]. *)
Definition digits12 (bound : Z) (s : list ascii) : option Z :=
  match s with
  | [d] => if Time.is_digit d then Some (Time.digit_val d) else None
  | [d1; d2] =>
      if Time.is_digit d1 && Time.is_digit d2
         && (10 * Time.digit_val d1 + Time.digit_val d2 <=? bound)%Z
      then Some (10 * Time.digit_val d1 + Time.digit_val d2)%Z else None
  | _ => None
  end.

(** The input up to its first [:], and what follows that [:]. *)
Fixpoint split_colon (s : list ascii) : option (list ascii * list ascii) :=
  match s with
  | [] => None
  | c :: r =>
      if Ascii.eqb c ":" then Some ([], r)
      else match split_colon r with
           | Some (a, b) => Some (c :: a, b)
           | None => None
           end
  end.

(** [H:M] with an hour of one or two digits, 0 to 23, and a minute of one
    or two digits, 0 to 59. *)
Definition lenient_HM (s : string) : option (Z * Z) :=
  match split_colon (list_ascii_of_string s) with
  | Some (hs, ms) =>
      match digits12 23 hs, digits12 59 ms with
      | Some h, Some m => Some (h, m)
      | _, _ => None
      end
  | None => None
  end.

(** ** Persistence: [save_data] and [load_data] *)

(** The values [json.load] returns and [json.dump] accepts.  Floats are
    left out: no operation of the store makes one. *)
#[warnings="-register-all"]
Inductive json :=
| JNull
| JBool (b : bool)
| JInt (n : Z)
| JStr (s : string)
| JArr (items : list json)
| JObj (members : list (string * json)).

(** The objects of the document are dicts: their keys are pairwise
    distinct. *)
Fixpoint json_wf (v : json) : Prop :=
  match v with
  | JArr items => fold_right (fun x acc => json_wf x /\ acc) True items
  | JObj members =>
      NoDup (map fst members)
      /\ fold_right (fun kv acc => (let '(_, x) := kv in json_wf x) /\ acc)
           True members
  | _ => True
  end.

(** The [json] module, over the contents of a file: [json_load] gives
    [None] where [json.load] raises JSONDecodeError.  The other errors of
    reading a file (UnicodeDecodeError on bytes that are no text,
    RecursionError on a document nested too deep) have no value here. *)
Class JsonCodec (blob : Type) := {
  json_dump : json -> blob;
  json_load : blob -> option json
}.

(** What the library promises: a dumped document loads back as itself. *)
Definition codec_sound {blob : Type} `{JsonCodec blob} : Prop :=
  forall v, json_wf v -> json_load (json_dump v) = Some v.

(** [self.tasks] and [self.schedule] as the documents [json.dump] writes
    for them. *)
Definition task_to_json (t : Task) : json :=
  JObj [("id", JInt (id t)); ("task", JStr (task t));
        ("priority", JStr (priority t)); ("completed", JBool (completed t));
        ("created_at", JStr (created_at t))]%string.

Definition tasks_to_json (l : list Task) : json :=
  JArr (map task_to_json l).

Definition schedule_to_json (sched : PyDict.dict (list Z)) : json :=
  JObj (map (fun '(time_slot, ids) => (time_slot, JArr (map JInt ids))) sched).

(** The loaded documents as values of the typed store; [None] for a
    document of any other shape. *)
Fixpoint traverse {A B : Type} (f : A -> option B) (l : list A)
    : option (list B) :=
  match l with
  | [] => Some []
  | x :: l' =>
      match f x, traverse f l' with
      | Some y, Some r => Some (y :: r)
      | _, _ => None
      end
  end.

Definition task_of_json (v : json) : option Task :=
  match v with
  | JObj [(k1, JInt i); (k2, JStr t); (k3, JStr p); (k4, JBool c);
          (k5, JStr ca)] =>
      if (String.eqb k1 "id" && String.eqb k2 "task"
          && String.eqb k3 "priority" && String.eqb k4 "completed"
          && String.eqb k5 "created_at")%string
      then Some {| id := i; task := t; priority := p; completed := c;
                   created_at := ca |}
      else None
  | _ => None
  end.

Definition tasks_of_json (v : json) : option (list Task) :=
  match v with
  | JArr items => traverse task_of_json items
  | _ => None
  end.

Definition int_of_json (v : json) : option Z :=
  match v with JInt n => Some n | _ => None end.

Definition slot_of_json (kv : string * json) : option (string * list Z) :=
  match kv with
  | (time_slot, JArr ids) =>
      match traverse int_of_json ids with
      | Some l => Some (time_slot, l)
      | None => None
      end
  | _ => None
  end.

Definition schedule_of_json (v : json) : option (PyDict.dict (list Z)) :=
  match v with
  | JObj members => traverse slot_of_json members
  | _ => None
  end.

(** How a call of [load_data] ends. *)
Inductive loaded :=
| Loaded (self : TodoWithScheduler)
    (** it returns, with this store *)
| Untyped
    (** it returns; [self.tasks] or [self.schedule] now holds a document
        that is not a task list or a schedule, which [data.get] stores
        without looking at it and the typed store has no value for *)
| AttributeError
    (** [data.get] raises: the document is not an object, and the
        [except] clause does not catch this error *).

Definition filename : string := "todo_schedule.json".

Section Persistence.
Context {blob : Type} `{JsonCodec blob}.

(** [save_data()]: the contents written to the file. *)
Definition save_data (self : TodoWithScheduler) : blob :=
  json_dump
    (JObj [("tasks", tasks_to_json (tasks self));
           ("schedule", schedule_to_json (schedule self))]%string).

(** [load_data()]: [file] is the contents of the file, [None] when
    [os.path.exists] is false.  The result comes with the printed
    lines. *)
Definition load_data (self : TodoWithScheduler) (file : option blob)
    : loaded * list string :=
  match file with
  | None => (Loaded self, [])
  | Some b =>
      match json_load b with
      | None =>
          (Loaded empty_store,
           [String.append "Error loading data from " filename])
      | Some (JObj data) =>
          let t := match PyDict.get "tasks" data with
                   | Some v => v | None => JArr [] end in
          let s := match PyDict.get "schedule" data with
                   | Some v => v | None => JObj [] end in
          (match tasks_of_json t, schedule_of_json s with
           | Some ts, Some sc => Loaded {| tasks := ts; schedule := sc |}
           | _, _ => Untyped
           end,
           [String.append "Data loaded from " filename])
      | Some _ => (AttributeError, [])
      end
  end.

(** [TodoWithScheduler()]: the constructor, which deserializes the
    file into a fresh store. *)
Definition init (file : option blob) : loaded * list string :=
  load_data empty_store file.

End Persistence.

(** ** A codec: compact JSON text

    One codec that keeps the promise of [codec_sound], over the text of
    the file: the layout of [json.dumps(v, separators=(",", ":"))] for
    strings whose characters need no escape other than the quote and the
    backslash. *)

Module JsonText.

Definition is_numchar (c : ascii) : bool :=
  Ascii.eqb c "-" || Time.is_digit c.

(** the longest prefix of characters of a number, and what follows *)
Fixpoint span_num (s : list ascii) : list ascii * list ascii :=
  match s with
  | c :: r =>
      if is_numchar c then let '(a, b) := span_num r in (c :: a, b)
      else ([], s)
  | [] => ([], [])
  end.

(** Nothing that follows a number may look like more of the number. *)
Definition no_num_head (s : list ascii) : Prop :=
  match s with
  | [] => True
  | c :: _ => is_numchar c = false
  end.

Definition print_int (n : Z) : list ascii :=
  list_ascii_of_string (NilEmpty.string_of_int (Z.to_int n)).

Definition parse_int (s : list ascii) : option (Z * list ascii) :=
  let '(tok, r) := span_num s in
  match NilEmpty.int_of_string (string_of_list_ascii tok) with
  | Some d => Some (Z.of_int d, r)
  | None => None
  end.

(** the quote character, code 34 *)
Definition dquote : ascii := ascii_of_nat 34.

Definition needs_escape (c : ascii) : bool :=
  Ascii.eqb c dquote || Ascii.eqb c "\".

Fixpoint escape (s : list ascii) : list ascii :=
  match s with
  | [] => []
  | c :: r =>
      if needs_escape c then "\"%char :: c :: escape r else c :: escape r
  end.

Definition print_string (s : string) : list ascii :=
  dquote :: escape (list_ascii_of_string s) ++ [dquote].

(** the characters up to the closing quote, after the opening one *)
Fixpoint read_string (s : list ascii) : option (list ascii * list ascii) :=
  match s with
  | [] => None
  | c :: r =>
      if Ascii.eqb c dquote then Some ([], r)
      else if Ascii.eqb c "\" then
        match r with
        | c2 :: r2 =>
            if needs_escape c2 then
              match read_string r2 with
              | Some (a, b) => Some (c2 :: a, b)
              | None => None
              end
            else None
        | [] => None
        end
      else
        match read_string r with
        | Some (a, b) => Some (c :: a, b)
        | None => None
        end
  end.

Definition parse_string (s : list ascii) : option (string * list ascii) :=
  match read_string s with
  | Some (a, b) => Some (string_of_list_ascii a, b)
  | None => None
  end.

Section More.
Context {A : Type} (p : A -> list ascii) (close : ascii).

(** the items after the first one, each after a comma, then the
    closing bracket *)
Fixpoint print_more (l : list A) : list ascii :=
  match l with
  | [] => [close]
  | x :: l' => ","%char :: p x ++ print_more l'
  end.

Definition print_items (l : list A) : list ascii :=
  match l with
  | [] => [close]
  | x :: l' => p x ++ print_more l'
  end.
End More.

Fixpoint print (v : json) : list ascii :=
  match v with
  | JNull => list_ascii_of_string "null"
  | JBool true => list_ascii_of_string "true"
  | JBool false => list_ascii_of_string "false"
  | JInt n => print_int n
  | JStr s => print_string s
  | JArr items => "["%char :: print_items print "]" items
  | JObj members =>
      "{"%char ::
      print_items
        (fun kv => let '(k, x) := kv in print_string k ++ ":"%char :: print x)
        "}" members
  end.

Definition print_member (kv : string * json) : list ascii :=
  let '(k, x) := kv in print_string k ++ ":"%char :: print x.

(** [s] without the prefix [p] *)
Fixpoint strip_prefix (p s : list ascii) : option (list ascii) :=
  match p, s with
  | [], _ => Some s
  | a :: p', b :: s' => if Ascii.eqb a b then strip_prefix p' s' else None
  | _ :: _, [] => None
  end.

Definition keyword (w : string) (v : json) (s : list ascii)
    : option (json * list ascii) :=
  match strip_prefix (list_ascii_of_string w) s with
  | Some r => Some (v, r)
  | None => None
  end.

Fixpoint parse_value (fuel : nat) (s : list ascii) {struct fuel}
    : option (json * list ascii) :=
  match fuel with
  | O => None
  | S f =>
      match s with
      | [] => None
      | c :: r =>
          if is_numchar c then
            match parse_int s with
            | Some (n, r') => Some (JInt n, r')
            | None => None
            end
          else if Ascii.eqb c "n" then keyword "null" JNull s
          else if Ascii.eqb c "t" then keyword "true" (JBool true) s
          else if Ascii.eqb c "f" then keyword "false" (JBool false) s
          else if Ascii.eqb c dquote then
            match parse_string r with
            | Some (str, r') => Some (JStr str, r')
            | None => None
            end
          else if Ascii.eqb c "[" then
            match r with
            | c' :: r' =>
                if Ascii.eqb c' "]" then Some (JArr [], r')
                else
                  match parse_value f r with
                  | Some (x, r1) =>
                      match parse_more f r1 with
                      | Some (xs, r2) => Some (JArr (x :: xs), r2)
                      | None => None
                      end
                  | None => None
                  end
            | [] => None
            end
          else if Ascii.eqb c "{" then
            match r with
            | c' :: r' =>
                if Ascii.eqb c' "}" then Some (JObj [], r')
                else
                  match parse_member f r with
                  | Some (kv, r1) =>
                      match parse_more_members f r1 with
                      | Some (kvs, r2) => Some (JObj (kv :: kvs), r2)
                      | None => None
                      end
                  | None => None
                  end
            | [] => None
            end
          else None
      end
  end

with parse_more (fuel : nat) (s : list ascii) {struct fuel}
    : option (list json * list ascii) :=
  match fuel with
  | O => None
  | S f =>
      match s with
      | c :: r =>
          if Ascii.eqb c "]" then Some ([], r)
          else if Ascii.eqb c "," then
            match parse_value f r with
            | Some (x, r1) =>
                match parse_more f r1 with
                | Some (xs, r2) => Some (x :: xs, r2)
                | None => None
                end
            | None => None
            end
          else None
      | [] => None
      end
  end

with parse_member (fuel : nat) (s : list ascii) {struct fuel}
    : option ((string * json) * list ascii) :=
  match fuel with
  | O => None
  | S f =>
      match s with
      | c :: r =>
          if Ascii.eqb c dquote then
            match parse_string r with
            | Some (k, c' :: r1) =>
                if Ascii.eqb c' ":" then
                  match parse_value f r1 with
                  | Some (x, r2) => Some ((k, x), r2)
                  | None => None
                  end
                else None
            | _ => None
            end
          else None
      | [] => None
      end
  end

with parse_more_members (fuel : nat) (s : list ascii) {struct fuel}
    : option (list (string * json) * list ascii) :=
  match fuel with
  | O => None
  | S f =>
      match s with
      | c :: r =>
          if Ascii.eqb c "}" then Some ([], r)
          else if Ascii.eqb c "," then
            match parse_member f r with
            | Some (kv, r1) =>
                match parse_more_members f r1 with
                | Some (kvs, r2) => Some (kv :: kvs, r2)
                | None => None
                end
            | None => None
            end
          else None
      | [] => None
      end
  end.

Definition dumps (v : json) : string := string_of_list_ascii (print v).

(** the whole text is one value; the fuel is more than any text of that
    length needs *)
Definition loads (text : string) : option json :=
  let s := list_ascii_of_string text in
  match parse_value (S (List.length s)) s with
  | Some (v, []) => Some v
  | _ => None
  end.

#[export] Instance text_codec : JsonCodec string :=
  {| json_dump := dumps; json_load := loads |}.

End JsonText.

(** ** Display: [view_tasks] and [view_schedule] *)

(** The characters of the display above code point 255: U+2713 (the
    mark of a completed task), U+2757, U+2022 and U+25E6 (the symbols of
    the priorities high, medium and low). *)
Inductive glyph := check_mark | exclamation_mark | bullet | white_bullet.

(** The parts of an f-string: its literal text and the [str] values put
    in, the [int] values put in, and the characters above. *)
Inductive piece :=
| Txt (s : string)
| Num (n : Z)
| Glyph (g : glyph).

(** What one [print] call writes. *)
Definition line := list piece.

Definition newline : string := String (ascii_of_nat 10) EmptyString.

(** [status = "(U+2713)" if task["completed"] else " "] *)
Definition status_of (t : Task) : piece :=
  if completed t then Glyph check_mark else Txt " ".

(** [{"high": ..., "medium": ..., "low": ...}] *)
Definition priority_symbols : PyDict.dict glyph :=
  [("high", exclamation_mark); ("medium", bullet); ("low", white_bullet)]%string.

(** [priority_symbol = {...}.get(task["priority"], "(U+2022)")] *)
Definition priority_symbol (t : Task) : piece :=
  Glyph (match PyDict.get (priority t) priority_symbols with
         | Some g => g
         | None => bullet
         end).

(** The loop of [view_tasks] over [self.schedule.items()], with its
    [break]: [" @ slot"] for the first slot that holds the id, the empty
    string when no slot does. *)
Fixpoint scheduled_time (task_id : Z) (items : PyDict.dict (list Z))
    : string :=
  match items with
  | [] => EmptyString
  | (time_slot, task_ids) :: items' =>
      if PyList.contains task_id task_ids
      then String.append " @ " time_slot
      else scheduled_time task_id items'
  end.

(** [f"[{status}] {task['id']}. {priority_symbol} {task['task']}{scheduled_time}"] *)
Definition task_line (self : TodoWithScheduler) (t : Task) : line :=
  [Txt "["; status_of t; Txt "] "; Num (id t); Txt ". "; priority_symbol t;
   Txt " "; Txt (task t); Txt (scheduled_time (id t) (schedule self))].

(** [view_tasks()]: the printed lines. *)
Definition view_tasks (self : TodoWithScheduler) : list line :=
  match tasks self with
  | [] => [[Txt "No tasks found."]]
  | _ :: _ =>
      [Txt (String.append newline "===== TO-DO LIST =====")]
      :: map (task_line self) (tasks self)
      ++ [[Txt (String.append "=====================" newline)]]
  end.

(** [a < b] on [datetime.time] values of an hour and a minute *)
Definition time_ltb (a b : Z * Z) : bool :=
  (fst a <? fst b)%Z || ((fst a =? fst b)%Z && (snd a <? snd b)%Z).

(** A slot with the key [sorted] computes for it; [None] is the
    ValueError of [strptime]. *)
Definition keyed (time_slot : string) : option ((Z * Z) * string) :=
  match Time.strptime time_slot with
  | Some t => Some (t, time_slot)
  | None => None
  end.

(** [sorted] is stable: among equal keys the earlier element stays first.
    Any stable sort gives the same list; this one inserts each element
    before the first one that is not smaller. *)
Fixpoint insert_by_time (x : (Z * Z) * string) (l : list ((Z * Z) * string))
    : list ((Z * Z) * string) :=
  match l with
  | [] => [x]
  | y :: l' =>
      if time_ltb (fst y) (fst x) then y :: insert_by_time x l'
      else x :: y :: l'
  end.

(** [sorted(self.schedule.keys(), key=lambda x: datetime.strptime(x,
    "%H:%M").time())]: the keys are computed first, for every slot in
    order, then the slots are sorted by them. *)
Definition sorted_times (sched : PyDict.dict (list Z)) : option (list string) :=
  match traverse keyed (PyDict.keys sched) with
  | Some l => Some (map snd (fold_right insert_by_time [] l))
  | None => None
  end.

(** The loop of [view_schedule] over [self.tasks], with its [break]: the
    line of the first task of that id, no line when no task has it. *)
Fixpoint schedule_row (task_id : Z) (l : list Task) : list line :=
  match l with
  | [] => []
  | t :: l' =>
      if Z.eqb (id t) task_id
      then [[Txt "  ["; status_of t; Txt "] "; Num task_id; Txt ". ";
             priority_symbol t; Txt " "; Txt (task t)]]
      else schedule_row task_id l'
  end.

(** The lines of one slot: [f"\n{time_slot}:"], then the rows of its
    ids. *)
Definition slot_lines (self : TodoWithScheduler) (time_slot : string)
    : list line :=
  [Txt newline; Txt time_slot; Txt ":"]
  :: flat_map (fun task_id => schedule_row task_id (tasks self))
       (match PyDict.get time_slot (schedule self) with
        | Some ids => ids
        | None => []
        end).

Definition schedule_header : line :=
  [Txt (String.append newline "===== TODAY'S SCHEDULE =====")].

(** [view_schedule()]: the printed lines, and [false] when [sorted]
    raises ValueError, which happens after the header is printed. *)
Definition view_schedule (self : TodoWithScheduler) : list line * bool :=
  match schedule self with
  | [] => ([[Txt "No scheduled tasks for today."]], true)
  | _ :: _ =>
      match sorted_times (schedule self) with
      | Some times =>
          (schedule_header
           :: flat_map (slot_lines self) times
           ++ [[Txt (String.append "===========================" newline)]],
           true)
      | None => ([schedule_header], false)
      end
  end.

(** ** The shell: the loop of [main] *)

(** What the menu asks of the store: [add_task] with a priority it has
    normalised and no time, and the other operations as they are. *)
Definition menu_op (_ : TodoWithScheduler) (o : op) : Prop :=
  match o with
  | OpAdd _ _ p st =>
      In p ["high"; "medium"; "low"]%string /\ st = None
  | _ => True
  end.

Section Shell.
Context {blob : Type} `{JsonCodec blob}.

(** [int(s)] of the library: [None] is its ValueError. *)
Variable py_int : string -> option Z.

(** [datetime.now()], formatted, as read when these lines of input are
    still to come. *)
Variable now : list string -> string.

(** How the loop ends. *)
Inductive ended :=
| Exited (file : blob) (self : TodoWithScheduler)
    (** choice 8: the store is saved and the loop left *)
| EOFError (self : TodoWithScheduler)
    (** [input()] finds no line to read; nothing catches this error *)
| ValueError (self : TodoWithScheduler)
    (** [view_schedule] raises ValueError; its call is in no [try] *).

Definition final_store (e : ended) : TodoWithScheduler :=
  match e with
  | Exited _ self | EOFError self | ValueError self => self
  end.

(** [while True: ...] over the lines that [input()] returns, one after
    the other.  The printed text is left out; [view_tasks] cannot
    raise. *)
Fixpoint main_loop (inputs : list string) (self : TodoWithScheduler)
    {struct inputs} : ended :=
  match inputs with
  | [] => EOFError self
  | choice :: rest =>
      if String.eqb choice "1" then
        match rest with
        | task :: priority :: schedule_now :: rest1 =>
            if String.eqb (lower schedule_now) "y" then
              match rest1 with
              | time_str :: rest2 =>
                  main_loop rest2
                    (menu_add (now rest2) self task priority (Some time_str))
              | [] => EOFError self
              end
            else
              main_loop rest1 (menu_add (now rest1) self task priority None)
        | _ => EOFError self
        end
      else if String.eqb choice "2" then
        match rest with
        | answer :: rest1 =>
            match py_int answer with
            | Some task_id => main_loop rest1 (fst (remove_task self task_id))
            | None => main_loop rest1 self
            end
        | [] => EOFError self
        end
      else if String.eqb choice "3" then
        match rest with
        | answer :: rest1 =>
            match py_int answer with
            | Some task_id => main_loop rest1 (fst (mark_complete self task_id))
            | None => main_loop rest1 self
            end
        | [] => EOFError self
        end
      else if String.eqb choice "4" then
        match rest with
        | answer :: rest1 =>
            match py_int answer with
            | Some task_id =>
                match rest1 with
                | time_str :: rest2 =>
                    main_loop rest2 (fst (schedule_task self task_id time_str))
                | [] => EOFError self
                end
            | None => main_loop rest1 self
            end
        | [] => EOFError self
        end
      else if String.eqb choice "5" then
        if snd (view_schedule self) then
          match rest with
          | answer :: rest1 =>
              match py_int answer with
              | Some task_id =>
                  main_loop rest1 (fst (unschedule_task self task_id))
              | None => main_loop rest1 self
              end
          | [] => EOFError self
          end
        else ValueError self
      else if String.eqb choice "6" then
        match rest with
        | _ :: rest1 => main_loop rest1 self
        | [] => EOFError self
        end
      else if String.eqb choice "7" then
        if snd (view_schedule self) then
          match rest with
          | _ :: rest1 => main_loop rest1 self
          | [] => EOFError self
          end
        else ValueError self
      else if String.eqb choice "8" then Exited (save_data self) self
      else main_loop rest self
  end.

(** How a run of the program goes. *)
Inductive program_run :=
| Started (e : ended)
    (** the constructor returned and the loop ran, to this end *)
| ConstructorRaised
    (** [TodoWithScheduler()] raised AttributeError *)
| StoreUntyped
    (** the constructor returned with a store that the typed model has
        no value for *).

(** [main()]: [file] is the contents of the file when the program
    starts, [inputs] the lines typed. *)
Definition main (file : option blob) (inputs : list string) : program_run :=
  match fst (init file) with
  | Loaded self => Started (main_loop inputs self)
  | AttributeError => ConstructorRaised
  | Untyped => StoreUntyped
  end.

End Shell.

(** ** Notions the properties of the display and the shell use *)

(** No [remove_task] among the operations. *)
Definition no_remove (ops : list op) : bool :=
  forallb (fun o => match o with OpRemove _ => false | _ => true end) ops.

(** The time of slot [a] is not after the time of slot [b]; [false] when
    one of them is no time. *)
Definition slot_before (a b : string) : bool :=
  match Time.strptime a, Time.strptime b with
  | Some ta, Some tb => negb (time_ltb tb ta)
  | _, _ => false
  end.

(** The slot [a], with its time, is not after the slot [b]. *)
Definition not_after (a b : (Z * Z) * string) : Prop :=
  time_ltb (fst b) (fst a) = false.

(** The priority of the task is one of the three the menu knows. *)
Definition normal_priority (t : Task) : Prop :=
  In (priority t) ["high"; "medium"; "low"]%string.

(** Every slot of the schedule has a key in two-digit form. *)
Definition keys_canonical (sched : PyDict.dict (list Z)) : Prop :=
  Forall (fun time_slot => strict_HHMM time_slot = true) (PyDict.keys sched).

(** No slot of the schedule holds the id. *)
Definition unscheduled (task_id : Z) (self : TodoWithScheduler) : Prop :=
  forall time_slot, in_slot task_id time_slot self = false.

(** * Properties *)

(** ** Lists *)

Module PyListFacts.
Import PyList.

Lemma contains_In x l : contains x l = true <-> In x l.
Proof.
  induction l as [|y l IH]; simpl.
  - split; [discriminate | tauto].
  - destruct (Z.eqb_spec y x) as [->|Hne].
    + split; auto.
    + rewrite IH. split; [auto | intros [E|E]; [contradiction | exact E]].
Qed.

Lemma contains_false x l : contains x l = false <-> ~ In x l.
Proof.
  rewrite <- contains_In. destruct (contains x l); split; congruence.
Qed.

Lemma remove_incl x y l : In y (remove x l) -> In y l.
Proof.
  induction l as [|z l IH]; simpl; [tauto|].
  destruct (Z.eqb z x); simpl; intuition.
Qed.

Lemma remove_NoDup x l : NoDup l -> NoDup (remove x l).
Proof.
  induction 1 as [|z l Hz Hl IH]; simpl; [constructor|].
  destruct (Z.eqb z x); [exact Hl|].
  constructor; [|exact IH]. intros Hin. apply Hz. eapply remove_incl, Hin.
Qed.

Lemma remove_gone x l : NoDup l -> ~ In x (remove x l).
Proof.
  induction 1 as [|z l Hz Hl IH]; simpl; [tauto|].
  destruct (Z.eqb_spec z x) as [->|Hzx]; [exact Hz|].
  simpl. intuition.
Qed.

Lemma NoDup_snoc {A : Type} (x : A) (l : list A) :
  NoDup l -> ~ In x l -> NoDup (l ++ [x]).
Proof.
  induction 1 as [|z l Hz Hl IH]; simpl; intros Hx.
  - constructor; [tauto | constructor].
  - constructor.
    + rewrite in_app_iff. simpl. intuition.
    + apply IH. tauto.
Qed.

End PyListFacts.

(** ** Dicts *)

Module PyDictFacts.
Import PyDict.

Section Facts.
Context {V : Type}.
Implicit Types (d : dict V) (k : string) (v : V).

Lemma get_In k v d : get k d = Some v -> In (k, v) d.
Proof.
  induction d as [|[k' v'] d IH]; simpl; [discriminate|].
  destruct (String.eqb_spec k' k) as [->|Hne].
  - intros [= ->]. auto.
  - auto.
Qed.

Lemma get_None k d : get k d = None <-> ~ In k (keys d).
Proof.
  induction d as [|[k' v'] d IH]; simpl; [tauto|].
  destruct (String.eqb_spec k' k) as [->|Hne].
  - split; [discriminate | tauto].
  - rewrite IH. tauto.
Qed.

Lemma In_keys k v d : In (k, v) d -> In k (keys d).
Proof. intros Hin. apply (in_map fst) in Hin. exact Hin. Qed.

(** [d[k] = v] on a new key appends the entry. *)
Lemma set_new k v d : get k d = None -> set k v d = d ++ [(k, v)].
Proof.
  induction d as [|[k' v'] d IH]; simpl; [reflexivity|].
  destruct (String.eqb k' k); [discriminate|].
  intros E. now rewrite IH.
Qed.

Lemma keys_set_old k v d : In k (keys d) -> keys (set k v d) = keys d.
Proof.
  induction d as [|[k' v'] d IH]; simpl; [tauto|].
  destruct (String.eqb_spec k' k) as [->|Hne]; [reflexivity|].
  intros [E|Hin]; [contradiction|]. simpl. f_equal. auto.
Qed.

Lemma In_set k v k' v' d :
  In (k', v') (set k v d) -> (k' = k /\ v' = v) \/ In (k', v') d.
Proof.
  induction d as [|[k0 v0] d IH]; simpl.
  - intros [[= <- <-]|[]]. auto.
  - destruct (String.eqb_spec k0 k) as [->|Hne]; simpl.
    + intros [[= <- <-]|Hin]; auto.
    + intros [E|Hin]; [auto|]. apply IH in Hin. tauto.
Qed.

Lemma dict_wf_set k v d : dict_wf d -> dict_wf (set k v d).
Proof.
  unfold dict_wf. intros Hnd.
  destruct (get k d) as [v0|] eqn:E.
  - rewrite keys_set_old; [exact Hnd|]. eapply In_keys, get_In, E.
  - rewrite (set_new _ _ _ E). unfold keys. rewrite map_app. simpl.
    apply PyListFacts.NoDup_snoc; [exact Hnd|]. now apply get_None.
Qed.

(** Entries before the one looked for do not matter. *)
Lemma get_skip k pre d : ~ In k (keys pre) -> get k (pre ++ d) = get k d.
Proof.
  induction pre as [|[k' v'] pre IH]; simpl; [reflexivity|].
  intros Hn. destruct (String.eqb_spec k' k) as [->|Hne]; [tauto|].
  apply IH. tauto.
Qed.

Lemma set_skip k v v0 pre suf :
  ~ In k (keys pre) ->
  set k v (pre ++ (k, v0) :: suf) = pre ++ (k, v) :: suf.
Proof.
  induction pre as [|[k' v'] pre IH]; simpl.
  - now rewrite String.eqb_refl.
  - intros Hn. destruct (String.eqb_spec k' k) as [->|Hne]; [tauto|].
    f_equal. apply IH. tauto.
Qed.

Lemma del_skip k v0 pre suf :
  ~ In k (keys pre) ->
  del k (pre ++ (k, v0) :: suf) = pre ++ suf.
Proof.
  induction pre as [|[k' v'] pre IH]; simpl.
  - now rewrite String.eqb_refl.
  - intros Hn. destruct (String.eqb_spec k' k) as [->|Hne]; [tauto|].
    f_equal. apply IH. tauto.
Qed.

Lemma get_set_same k v d : get k (set k v d) = Some v.
Proof.
  induction d as [|[k' v'] d IH]; simpl.
  - now rewrite String.eqb_refl.
  - destruct (String.eqb_spec k' k) as [->|Hne]; simpl.
    + now rewrite String.eqb_refl.
    + destruct (String.eqb_spec k' k); [contradiction | exact IH].
Qed.


End Facts.
End PyDictFacts.

Module TimeFacts.
Import Time.

Lemma colon_code c : Ascii.eqb c ":" = (nat_of_ascii c =? 58)%nat.
Proof.
  destruct (Ascii.eqb_spec c ":") as [->|Hne]; [reflexivity|].
  symmetry. apply Nat.eqb_neq. intros E. apply Hne.
  rewrite <- (ascii_nat_embedding c), E. reflexivity.
Qed.

Ltac bools :=
  repeat match goal with
    | H : (_ && _) = true |- _ => apply andb_true_iff in H; destruct H
    | H : (_ && _) = false |- _ => apply andb_false_iff in H; destruct H
    | H : (_ <=? _)%nat = true |- _ => apply Nat.leb_le in H
    | H : (_ <=? _)%nat = false |- _ => apply Nat.leb_gt in H
    | H : (_ =? _)%nat = true |- _ => apply Nat.eqb_eq in H
    | H : (_ =? _)%nat = false |- _ => apply Nat.eqb_neq in H
    | H : (_ <=? _)%Z = true |- _ => apply Z.leb_le in H
    | H : (_ <=? _)%Z = false |- _ => apply Z.leb_gt in H
    end.

Ltac lists :=
  cbn [andb orb negb hd_error app flat_map map fst snd split_colon].

(** Splits the tests of the goal, one character code at a time. *)
Ltac split_ifs :=
  repeat match goal with
    | |- context [if ?b then _ else _] =>
        let E := fresh "E" in
        destruct b eqn:E; lists; rewrite ?colon_code in *; bools; try lia
    end.

Ltac codes :=
  rewrite ?colon_code;
  repeat match goal with
    | |- context [nat_of_ascii ?c] =>
        is_var c; generalize (nat_of_ascii c); clear c; intro
    end.

(** The minute and the end of the input: the first match of [%M] has to
    use up the input. *)
Lemma re_M_whole r :
  match hd_error (re_M r) with
  | Some (m, []) => Some m
  | _ => None
  end = digits12 59 r.
Proof.
  unfold re_M, two_digits, one_digit, digits12, is_digit, in_class,
    digit_val.
  destruct r as [|c1 [|c2 [|c3 r]]]; lists; codes;
    split_ifs; try reflexivity.
Qed.

(** The hour and the colon: at most one alternative of [%H] is followed
    by the colon. *)
Lemma hour_colon_split s :
  hour_colon s =
  match split_colon s with
  | Some (hs, ms) =>
      match digits12 23 hs with Some h => [(h, ms)] | None => [] end
  | None => []
  end.
Proof.
  unfold hour_colon, re_H, re_colon, two_digits, one_digit, digits12,
    is_digit, in_class, digit_val.
  destruct s as [|c1 [|c2 [|c3 r]]]; lists; codes;
    try (destruct (split_colon r) as [[a b]|]; lists);
    split_ifs; try reflexivity; try (repeat f_equal; lia).
Qed.

Lemma re_match_hour_colon s :
  re_match s =
  hd_error
    (flat_map (fun '(h, r2) => map (fun '(m, r3) => (h, m, r3)) (re_M r2))
       (hour_colon s)).
Proof.
  unfold re_match, hour_colon. f_equal.
  induction (re_H s) as [|[h r1] L IH]; [reflexivity|].
  cbn [flat_map]. rewrite flat_map_app, IH. f_equal.
  unfold re_colon. destruct r1 as [|c r]; [reflexivity|].
  destruct (Ascii.eqb c ":"); [|reflexivity].
  cbn [flat_map map]. reflexivity.
Qed.

(** What [strptime] accepts, and the time it returns: one or two digits
    for an hour up to 23, a colon, one or two digits for a minute up to
    59. *)
Theorem strptime_lenient s : strptime s = lenient_HM s.
Proof.
  unfold strptime, lenient_HM.
  rewrite re_match_hour_colon, hour_colon_split.
  destruct (split_colon (list_ascii_of_string s)) as [[hs ms]|];
    [|reflexivity].
  destruct (digits12 23 hs) as [h|]; [|reflexivity].
  rewrite <- re_M_whole. cbn [flat_map]. rewrite app_nil_r.
  destruct (re_M ms) as [|[m [|c r]] L]; reflexivity.
Qed.

Lemma digit_char_code c :
  is_digit c = true -> digit_char (digit_val c) = c.
Proof.
  unfold is_digit, digit_char, digit_val. intros H. bools.
  rewrite Nat2Z.id.
  replace (48 + (nat_of_ascii c - 48))%nat with (nat_of_ascii c) by lia.
  apply ascii_nat_embedding.
Qed.

Lemma digit_val_range c : is_digit c = true -> (0 <= digit_val c <= 9)%Z.
Proof. unfold is_digit, digit_val. intros H. bools. lia. Qed.

Lemma pad2_two c1 c2 rest :
  is_digit c1 = true -> is_digit c2 = true ->
  pad2 (10 * digit_val c1 + digit_val c2) rest = String c1 (String c2 rest).
Proof.
  intros H1 H2. unfold pad2.
  pose proof (digit_val_range _ H1). pose proof (digit_val_range _ H2).
  replace ((10 * digit_val c1 + digit_val c2) / 10)%Z with (digit_val c1)
    by (apply (Z.div_unique _ _ _ (digit_val c2)); lia).
  replace ((10 * digit_val c1 + digit_val c2) mod 10)%Z with (digit_val c2)
    by (apply (Z.mod_unique _ _ (digit_val c1)); lia).
  now rewrite !digit_char_code.
Qed.

(** A time in two-digit form is read and written back as itself. *)
Lemma strict_round_trip s :
  strict_HHMM s = true ->
  exists t, strptime s = Some t /\ strftime t = s.
Proof.
  rewrite strptime_lenient. unfold strict_HHMM, lenient_HM.
  pose proof (string_of_list_ascii_of_string s) as Hs. revert Hs.
  destruct (list_ascii_of_string s) as [|h1 [|h2 [|c [|m1 [|m2 [|x r]]]]]];
    try discriminate.
  intros Hs H. bools.
  match goal with H : (c =? ":")%char = true |- _ =>
    apply Ascii.eqb_eq in H; subst c end.
  assert (Hh1 : (h1 =? ":")%char = false).
  { rewrite colon_code. unfold is_digit in *. bools.
    apply Nat.eqb_neq. lia. }
  assert (Hh2 : (h2 =? ":")%char = false).
  { rewrite colon_code. unfold is_digit in *. bools.
    apply Nat.eqb_neq. lia. }
  cbn [split_colon]. rewrite Hh1, Hh2, Ascii.eqb_refl.
  unfold digits12.
  repeat match goal with H : is_digit _ = true |- _ => rewrite H end.
  repeat match goal with H : (_ <= _)%Z |- _ =>
    apply Z.leb_le in H; rewrite H end.
  cbn [andb]. eexists. split; [reflexivity|].
  unfold strftime. cbn [fst snd]. rewrite !pad2_two by assumption.
  rewrite <- Hs. reflexivity.
Qed.

End TimeFacts.

(** ** The schedule index under the operations *)

Module ScheduleFacts.
Import PyListFacts PyDictFacts.

(** [schedule_task] in one piece. *)
Lemma schedule_task_eq self task_id time_str :
  schedule_task self task_id time_str =
  match Time.strptime time_str with
  | Some t =>
      ({| tasks := tasks self;
          schedule := slot_insert task_id (Time.strftime t) (schedule self) |},
       true)
  | None => (self, false)
  end.
Proof.
  unfold schedule_task, slot_insert, PyDict.mem.
  destruct (Time.strptime time_str) as [t|]; [|reflexivity].
  do 2 f_equal.
  destruct (PyDict.get (Time.strftime t) (schedule self)) as [ids|] eqn:E;
    cbn [negb].
  - rewrite E. now destruct (PyList.contains task_id ids).
  - rewrite get_set_same. cbn [PyList.contains negb app].
    rewrite (set_new _ _ _ E).
    rewrite <- (app_nil_r (schedule self)) at 2.
    rewrite <- app_assoc. cbn [app].
    apply set_skip. now apply get_None.
Qed.

(** The loop over the slots, as one pass over the entries. *)
Lemma purge_slots_from task_id suf :
  forall pre found,
    PyDict.dict_wf (pre ++ suf) ->
    purge_slots task_id (PyDict.keys suf) (pre ++ suf) found =
    (pre ++ flat_map (purged_entry task_id) suf,
     existsb (fun e => PyList.contains task_id (snd e)) suf || found).
Proof.
  induction suf as [|[k ids] suf IH]; intros pre found Hwf.
  - reflexivity.
  - assert (Hk : ~ In k (PyDict.keys pre)).
    { unfold PyDict.dict_wf, PyDict.keys in Hwf. rewrite map_app in Hwf.
      apply NoDup_remove_2 in Hwf. rewrite in_app_iff in Hwf. tauto. }
    assert (Hwf' : forall v, PyDict.dict_wf ((pre ++ [(k, v)]) ++ suf)).
    { intros v. unfold PyDict.dict_wf, PyDict.keys in *.
      rewrite <- app_assoc. rewrite map_app in *. exact Hwf. }
    cbn [PyDict.keys map fst purge_slots flat_map existsb snd].
    unfold purge_slot. rewrite get_skip by exact Hk.
    cbn [PyDict.get]. rewrite String.eqb_refl.
    unfold purged_entry. cbn [fst snd].
    destruct (PyList.contains task_id ids).
    + destruct (PyList.is_empty (PyList.remove task_id ids)).
      * rewrite del_skip by exact Hk.
        rewrite IH.
        -- f_equal. now destruct (existsb _ suf), found.
        -- unfold PyDict.dict_wf, PyDict.keys in *. rewrite map_app in *.
           eapply NoDup_remove_1, Hwf.
      * rewrite (set_skip _ _ _ _ _ Hk).
        change (pre ++ (k, PyList.remove task_id ids) :: suf)
          with (pre ++ [(k, PyList.remove task_id ids)] ++ suf).
        rewrite app_assoc, (IH _ _ (Hwf' _)), <- app_assoc.
        f_equal. now destruct (existsb _ suf), found.
    + change (pre ++ (k, ids) :: suf) with (pre ++ [(k, ids)] ++ suf).
      rewrite app_assoc, (IH _ _ (Hwf' _)), <- app_assoc. reflexivity.
Qed.

Lemma purge_slots_all task_id sched :
  PyDict.dict_wf sched ->
  purge_slots task_id (PyDict.keys sched) sched false =
  (flat_map (purged_entry task_id) sched,
   existsb (fun e => PyList.contains task_id (snd e)) sched).
Proof.
  intros Hwf.
  pose proof (purge_slots_from task_id sched [] false Hwf) as E.
  cbn [app] in E. rewrite E. now rewrite orb_false_r.
Qed.

(** Each entry after the loop is an entry from before it: as it was if
    it did not hold the id, without the first occurrence of the id, and
    not empty, if it did. *)
Lemma In_purged task_id k ids sched :
  In (k, ids) (flat_map (purged_entry task_id) sched) ->
  exists ids0,
    In (k, ids0) sched
    /\ ((PyList.contains task_id ids0 = false /\ ids = ids0)
        \/ (PyList.contains task_id ids0 = true
            /\ ids = PyList.remove task_id ids0 /\ ids <> [])).
Proof.
  induction sched as [|[k0 ids0] sched IH]; cbn [flat_map]; [intros []|].
  rewrite in_app_iff. intros [Hin|Hin].
  - unfold purged_entry in Hin. cbn [fst snd] in Hin.
    destruct (PyList.contains task_id ids0) eqn:Ec.
    + destruct (PyList.is_empty (PyList.remove task_id ids0)) eqn:Ee;
        [destruct Hin|].
      destruct Hin as [[= <- <-]|[]].
      exists ids0. split; [now left|]. right.
      split; [exact Ec|]. split; [reflexivity|].
      intros En. rewrite En in Ee. discriminate.
    + destruct Hin as [[= <- <-]|[]]. exists ids0. split; [now left|].
      left. split; [exact Ec | reflexivity].
  - destruct (IH Hin) as (ids1 & Hin1 & Hc). exists ids1.
    split; [now right | exact Hc].
Qed.

(** A slot that does not hold the id stays. *)
Lemma purged_keeps task_id k ids sched :
  In (k, ids) sched -> PyList.contains task_id ids = false ->
  In (k, ids) (flat_map (purged_entry task_id) sched).
Proof.
  intros Hin Hc. apply in_flat_map. exists (k, ids). split; [exact Hin|].
  unfold purged_entry. cbn [fst snd]. rewrite Hc. now left.
Qed.

Lemma purged_keys task_id k sched :
  In k (PyDict.keys (flat_map (purged_entry task_id) sched)) ->
  In k (PyDict.keys sched).
Proof.
  unfold PyDict.keys. rewrite !in_map_iff.
  intros ([k' ids] & <- & Hin). apply In_purged in Hin.
  destruct Hin as (ids0 & Hin & _). now exists (k', ids0).
Qed.

Lemma purged_dict_wf task_id sched :
  PyDict.dict_wf sched ->
  PyDict.dict_wf (flat_map (purged_entry task_id) sched).
Proof.
  unfold PyDict.dict_wf.
  induction sched as [|[k ids] sched IH]; cbn [flat_map]; [auto|].
  intros Hnd. cbn [PyDict.keys map fst] in Hnd.
  inversion Hnd as [|? ? Hk Hrest]; subst.
  unfold purged_entry at 1. cbn [fst snd].
  destruct (PyList.contains task_id ids);
    [destruct (PyList.is_empty (PyList.remove task_id ids))|];
    cbn [app PyDict.keys map fst]; auto;
    (constructor; [|now apply IH]);
    intros Hin; apply Hk; eapply purged_keys, Hin.
Qed.

Lemma schedule_wf_purged task_id sched :
  schedule_wf sched -> schedule_wf (flat_map (purged_entry task_id) sched).
Proof.
  intros [Hd He]. split; [now apply purged_dict_wf|].
  intros k ids Hin. apply In_purged in Hin.
  destruct Hin as (ids0 & Hin0 & [[_ ->]|(_ & -> & Hne)]).
  - now apply (He k).
  - split; [exact Hne|]. apply remove_NoDup. now apply (He k ids0).
Qed.

(** After the loop no slot holds the id. *)
Lemma purged_gone task_id k ids sched :
  schedule_wf sched ->
  In (k, ids) (flat_map (purged_entry task_id) sched) ->
  ~ In task_id ids.
Proof.
  intros [_ He] Hin. apply In_purged in Hin.
  destruct Hin as (ids0 & Hin0 & [[Hc ->]|(_ & -> & _)]).
  - now apply contains_false.
  - apply remove_gone. now apply (He k ids0).
Qed.

Lemma In_slot_insert task_id k k' ids' sched :
  In (k', ids') (slot_insert task_id k sched) ->
  In (k', ids') sched
  \/ (k' = k /\
      match PyDict.get k sched with
      | None => ids' = [task_id]
      | Some ids =>
          PyList.contains task_id ids = false /\ ids' = ids ++ [task_id]
      end).
Proof.
  unfold slot_insert.
  destruct (PyDict.get k sched) as [ids|] eqn:E.
  - destruct (PyList.contains task_id ids) eqn:Ec; [now left|].
    intros Hin. apply In_set in Hin. destruct Hin as [[-> ->]|Hin]; auto.
  - rewrite in_app_iff. intros [Hin|[[= <- <-]|[]]]; auto.
Qed.

Lemma schedule_wf_insert task_id k sched :
  schedule_wf sched -> schedule_wf (slot_insert task_id k sched).
Proof.
  intros [Hd He]. split.
  - unfold slot_insert.
    destruct (PyDict.get k sched) as [ids|] eqn:E.
    + destruct (PyList.contains task_id ids); [exact Hd|].
      now apply dict_wf_set.
    + rewrite <- (set_new _ _ _ E). now apply dict_wf_set.
  - intros k' ids' Hin. apply In_slot_insert in Hin.
    destruct Hin as [Hin|[-> Hnew]]; [now apply (He k')|].
    destruct (PyDict.get k sched) as [ids|] eqn:E.
    + destruct Hnew as [Hc ->]. apply get_In in E. apply He in E.
      split; [now destruct ids|].
      apply NoDup_snoc; [tauto | now apply contains_false].
    + subst ids'. split; [discriminate|].
      constructor; [intros [] | constructor].
Qed.

(** The slot of a successful [schedule_task] holds the id afterwards. *)
Lemma slot_insert_holds task_id k sched :
  exists ids,
    PyDict.get k (slot_insert task_id k sched) = Some ids
    /\ PyList.contains task_id ids = true.
Proof.
  unfold slot_insert.
  destruct (PyDict.get k sched) as [ids|] eqn:E.
  - destruct (PyList.contains task_id ids) eqn:Ec.
    + now exists ids.
    + exists (ids ++ [task_id]). split; [apply get_set_same|].
      apply contains_In, in_app_iff. right. now left.
  - exists [task_id]. rewrite <- (set_new _ _ _ E). split.
    + apply get_set_same.
    + cbn. now rewrite Z.eqb_refl.
Qed.


End ScheduleFacts.

(** ** The task list under the operations *)

Module TaskFacts.

Lemma pop_first_none task_id l :
  pop_first task_id l = None <->
  existsb (fun t => Z.eqb (id t) task_id) l = false.
Proof.
  induction l as [|t l IH]; cbn [pop_first existsb]; [tauto|].
  destruct (Z.eqb (id t) task_id); cbn [orb].
  - split; discriminate.
  - rewrite <- IH. destruct (pop_first task_id l); split; congruence.
Qed.

(** [pop_first] takes out the first task of that id and nothing else. *)
Lemma pop_first_split task_id l l' :
  pop_first task_id l = Some l' ->
  exists pre t suf,
    l = pre ++ t :: suf /\ l' = pre ++ suf /\ id t = task_id
    /\ Forall (fun t' => id t' <> task_id) pre.
Proof.
  revert l'. induction l as [|t l IH]; cbn [pop_first]; [discriminate|].
  intros l'. destruct (Z.eqb_spec (id t) task_id) as [E|Hne].
  - intros [= <-]. exists [], t, l. repeat split; auto.
  - destruct (pop_first task_id l) as [r|]; [|discriminate].
    intros [= <-]. destruct (IH r eq_refl) as (pre & t0 & suf & -> & -> & E & F).
    exists (t :: pre), t0, suf. repeat split; auto.
Qed.

(** The tasks of the other ids stay. *)
Lemma pop_first_other task_id x l l' :
  pop_first task_id l = Some l' -> x <> task_id ->
  existsb (fun t => Z.eqb (id t) x) l' = existsb (fun t => Z.eqb (id t) x) l.
Proof.
  intros Hp Hne. apply pop_first_split in Hp.
  destruct Hp as (pre & t & suf & -> & -> & E & _).
  rewrite !existsb_app. cbn [existsb].
  destruct (Z.eqb_spec (id t) x); [congruence | reflexivity].
Qed.

(** [complete_first] touches the first task of that id and nothing
    else. *)
Lemma complete_first_split task_id l l' :
  complete_first task_id l = Some l' ->
  exists pre t suf,
    l = pre ++ t :: suf /\ l' = pre ++ with_completed t :: suf
    /\ id t = task_id /\ Forall (fun t' => id t' <> task_id) pre.
Proof.
  revert l'. induction l as [|t l IH]; cbn [complete_first]; [discriminate|].
  intros l'. destruct (Z.eqb_spec (id t) task_id) as [E|Hne].
  - intros [= <-]. exists [], t, l. repeat split; auto.
  - destruct (complete_first task_id l) as [r|]; [|discriminate].
    intros [= <-]. destruct (IH r eq_refl) as (pre & t0 & suf & -> & -> & E & F).
    exists (t :: pre), t0, suf. repeat split; auto.
Qed.

Lemma complete_first_ids task_id l l' :
  complete_first task_id l = Some l' -> map id l' = map id l.
Proof.
  intros Hc. apply complete_first_split in Hc.
  destruct Hc as (pre & t & suf & -> & -> & _). now rewrite !map_app.
Qed.

Lemma existsb_ids x l l' :
  map id l' = map id l ->
  existsb (fun t => Z.eqb (id t) x) l' = existsb (fun t => Z.eqb (id t) x) l.
Proof.
  revert l'. induction l as [|t l IH]; intros [|t' l']; cbn [map existsb];
    try discriminate; [reflexivity|].
  intros [= E1 E2]. now rewrite E1, (IH l' E2).
Qed.

End TaskFacts.

(** ** The operations in one piece *)

Module StepFacts.
Import PyListFacts PyDictFacts ScheduleFacts TaskFacts.

Lemma remove_task_eq self task_id :
  PyDict.dict_wf (schedule self) ->
  remove_task self task_id =
  match pop_first task_id (tasks self) with
  | Some tasks' =>
      ({| tasks := tasks';
          schedule := flat_map (purged_entry task_id) (schedule self) |},
       true)
  | None => (self, false)
  end.
Proof.
  intros Hwf. unfold remove_task.
  destruct (pop_first task_id (tasks self)); [|reflexivity].
  now rewrite purge_slots_all.
Qed.

Lemma unschedule_task_eq self task_id :
  PyDict.dict_wf (schedule self) ->
  unschedule_task self task_id =
  ({| tasks := tasks self;
      schedule := flat_map (purged_entry task_id) (schedule self) |},
   existsb (fun e => PyList.contains task_id (snd e)) (schedule self)).
Proof.
  intros Hwf. unfold unschedule_task. now rewrite purge_slots_all.
Qed.

Lemma add_task_eq now self t p st :
  add_task now self t p st =
  ({| tasks := tasks self ++ [new_task now self t p];
      schedule :=
        match truthy st with
        | Some ts =>
            match Time.strptime ts with
            | Some tm =>
                slot_insert (Z.of_nat (List.length (tasks self)) + 1)
                  (Time.strftime tm) (schedule self)
            | None => schedule self
            end
        | None => schedule self
        end |},
   (Z.of_nat (List.length (tasks self)) + 1)%Z).
Proof.
  unfold add_task, new_task. f_equal.
  destruct (truthy st) as [ts|]; [|reflexivity].
  rewrite schedule_task_eq. cbn [tasks schedule].
  now destruct (Time.strptime ts).
Qed.

(** Every operation keeps the schedule index well formed. *)
Lemma step_schedule_wf self o :
  schedule_wf (schedule self) -> schedule_wf (schedule (step self o)).
Proof.
  intros Hwf. pose proof (proj1 Hwf) as Hd.
  destruct o as [now t p st|i|i|i ts|i]; cbn [step].
  - rewrite add_task_eq. cbn [fst schedule].
    destruct (truthy st) as [ts|]; [|exact Hwf].
    destruct (Time.strptime ts); [|exact Hwf].
    now apply schedule_wf_insert.
  - rewrite remove_task_eq by exact Hd.
    destruct (pop_first i (tasks self)); [|exact Hwf].
    cbn [fst schedule]. now apply schedule_wf_purged.
  - unfold mark_complete.
    now destruct (complete_first i (tasks self)).
  - rewrite schedule_task_eq.
    destruct (Time.strptime ts); [|exact Hwf].
    cbn [fst schedule]. now apply schedule_wf_insert.
  - rewrite unschedule_task_eq by exact Hd.
    cbn [fst schedule]. now apply schedule_wf_purged.
Qed.

Lemma schedule_wf_empty : schedule_wf (schedule empty_store).
Proof.
  split; [constructor | intros k ids []].
Qed.

Lemma reachable_schedule_wf allowed self :
  reachable_by allowed self -> schedule_wf (schedule self).
Proof.
  induction 1 as [|self o _ IH _].
  - apply schedule_wf_empty.
  - now apply step_schedule_wf.
Qed.

Lemma run_snoc ops o : run (ops ++ [o]) = step (run ops) o.
Proof. unfold run. now rewrite fold_left_app. Qed.

(** Every store of [run] is reachable. *)
Lemma run_reachable ops : reachable (run ops).
Proof.
  induction ops as [|o ops IH] using rev_ind.
  - apply reach_empty.
  - rewrite run_snoc. apply reach_step; [exact IH | exact I].
Qed.

End StepFacts.

(** ** The claims about the task store *)

Section TaskStoreClaims.
Import PyListFacts PyDictFacts ScheduleFacts TaskFacts StepFacts.
Local Open Scope string_scope.
Local Open Scope list_scope.

(** C1, on the code: [add_task] takes [len(self.tasks) + 1] for the new
    id, so after a removal it hands out an id again.  Two tasks are
    added, the first is removed, a third is added: the third gets the id
    2, which the second task still has, where three tasks were created
    so far and the id should be 3. *)
Theorem add_task_reuses_id_after_remove :
  let '(s1, id1) := add_task "t0" empty_store "a" "medium" None in
  let '(s2, id2) := add_task "t1" s1 "b" "medium" None in
  let '(s3, found) := remove_task s2 1 in
  let '(s4, id3) := add_task "t2" s3 "c" "medium" None in
  (id1, id2, found, id3) = (1, 2, true, 2)%Z
  /\ map id (tasks s4) = [2; 2]%Z
  /\ map task (tasks s4) = ["b"; "c"].
Proof. repeat split. Qed.

(** C5, as the claim states it, fails: [add_task] with the priority
    "urgent" stores "urgent", not "medium". *)
Lemma add_task_unknown_priority_kept :
  map priority (tasks (fst (add_task "t0" empty_store "a" "urgent" None)))
  = ["urgent"]
  /\ "urgent" <> "medium".
Proof. split; [reflexivity | discriminate]. Qed.

Lemma menu_priority_cases input :
  (In (lower input) ["high"; "medium"; "low"]
   /\ menu_priority input = lower input)
  \/ (~ In (lower input) ["high"; "medium"; "low"]
      /\ menu_priority input = "medium").
Proof.
  unfold menu_priority. cbn [existsb].
  destruct (String.eqb_spec (lower input) "high") as [E|N1];
    [left; rewrite E; cbn; auto|].
  destruct (String.eqb_spec (lower input) "medium") as [E|N2];
    [left; rewrite E; cbn; auto|].
  destruct (String.eqb_spec (lower input) "low") as [E|N3];
    [left; rewrite E; cbn; auto|].
  right. split; [|reflexivity]. cbn [In]. intuition congruence.
Qed.

(** C5, amended: [add_task] stores the priority it is given, whatever it
    is; the coercion is the shell's, which lowers the text it reads and
    replaces by "medium" what is not high, medium or low before it calls
    [add_task]. *)
Theorem add_task_stores_priority_as_given now self t p st input time :
  (tasks (fst (add_task now self t p st))
     = tasks self ++ [new_task now self t p]
   /\ priority (new_task now self t p) = p)
  /\ (tasks (menu_add now self t input time)
        = tasks self ++ [new_task now self t (menu_priority input)]
      /\ In (menu_priority input) ["high"; "medium"; "low"]
      /\ (In (lower input) ["high"; "medium"; "low"] ->
          menu_priority input = lower input)
      /\ (~ In (lower input) ["high"; "medium"; "low"] ->
          menu_priority input = "medium")).
Proof.
  split; [split; [now rewrite add_task_eq | reflexivity]|].
  split.
  - unfold menu_add. rewrite add_task_eq. cbn [truthy].
    destruct time as [ts|]; [|reflexivity].
    rewrite schedule_task_eq. now destruct (Time.strptime ts).
  - destruct (menu_priority_cases input) as [[Hin E]|[Hn E]].
    + rewrite E. repeat split; auto. intros Hn. contradiction.
    + rewrite E. repeat split; auto.
      * cbn. auto.
      * intros Hin. contradiction.
Qed.

(** C7, as the claim states it, fails: "7:05" is not in the strict
    two-digit form, and [schedule_task] returns True for it and writes
    the slot 07:05. *)
Lemma schedule_task_not_strict_accepted :
  strict_HHMM "7:05" = false
  /\ schedule_task empty_store 1 "7:05"
     = ({| tasks := []; schedule := [("07:05", [1%Z])] |}, true)
  /\ schedule_task empty_store 1 "7:05" <> (empty_store, false).
Proof. repeat split; discriminate. Qed.

(** C7, amended: for every store, every id and every time string (of
    characters below code point 256) that the parse of the code does not
    take, that is every string not of the form [H:M] with an hour of one
    or two digits, 0 to 23, and a minute of one or two digits, 0 to 59,
    [schedule_task] returns False and the store, tasks and schedule, is
    the one it was given. *)
Theorem schedule_task_invalid_time self task_id time_str :
  lenient_HM time_str = None ->
  schedule_task self task_id time_str = (self, false)
  /\ Time.strptime time_str = None.
Proof.
  intros E. rewrite <- TimeFacts.strptime_lenient in E.
  unfold schedule_task. now rewrite E.
Qed.

Lemma schedule_task_invalid_time_witness :
  let self := run [OpAdd "t0" "a" "high" (Some "09:30")] in
  schedule_task self 1 "12-30" = (self, false)
  /\ schedule_task self 1 "24:00" = (self, false)
  /\ schedule_task self 1 "ab:cd" = (self, false).
Proof.
  intros self. split; [|split].
  - exact (proj1 (schedule_task_invalid_time self 1 "12-30" eq_refl)).
  - exact (proj1 (schedule_task_invalid_time self 1 "24:00" eq_refl)).
  - exact (proj1 (schedule_task_invalid_time self 1 "ab:cd" eq_refl)).
Defined.

Lemma complete_first_at task_id pre t suf :
  Forall (fun t' => id t' <> task_id) pre -> id t = task_id ->
  complete_first task_id (pre ++ t :: suf)
  = Some (pre ++ with_completed t :: suf).
Proof.
  intros Hpre E. induction Hpre as [|t0 pre H0 _ IH]; cbn [app complete_first].
  - apply Z.eqb_eq in E. now rewrite E.
  - apply Z.eqb_neq in H0. now rewrite H0, IH.
Qed.

(** C10: [mark_complete] leaves the schedule as it is and the tasks in
    their places; a task differs from what it was in [completed] at
    most, and only if it has the id; nothing changes when no task has
    the id; a second call with the same id returns the same answer and
    changes nothing. *)
Theorem mark_complete_frame self task_id :
  let after := fst (mark_complete self task_id) in
  schedule after = schedule self
  /\ Forall2
       (fun t t' => same_but_completed t t' /\ (id t <> task_id -> t' = t))
       (tasks self) (tasks after)
  /\ (snd (mark_complete self task_id) = false -> after = self)
  /\ mark_complete after task_id = (after, snd (mark_complete self task_id)).
Proof.
  assert (Hrefl : forall l : list Task,
    Forall2 (fun t t' => same_but_completed t t' /\ (id t <> task_id -> t' = t))
      l l).
  { induction l; constructor; auto. repeat split. }
  unfold mark_complete.
  destruct (complete_first task_id (tasks self)) as [l'|] eqn:E;
    cbn [fst snd tasks schedule].
  - split; [reflexivity|]. apply complete_first_split in E.
    destruct E as (pre & t & suf & Hl & -> & Hid & Hpre).
    split; [|split; [discriminate|]].
    + rewrite Hl. apply Forall2_app; [apply Hrefl|].
      constructor; [|apply Hrefl].
      split; [repeat split | intros Hne; contradiction].
    + rewrite (complete_first_at _ _ (with_completed t)) by assumption.
      reflexivity.
  - repeat split; auto. now rewrite E.
Qed.

End TaskStoreClaims.

(** ** The loop over the slots does what the spec says of the cascade *)

Module CascadeFacts.
Import PyListFacts.

Lemma filter_absent x l :
  ~ In x l -> filter (fun y => negb (Z.eqb y x)) l = l.
Proof.
  induction l as [|y l IH]; cbn [filter In]; [reflexivity|].
  intros Hn. destruct (Z.eqb_spec y x) as [->|Hne]; [tauto|].
  cbn [negb]. f_equal. apply IH. tauto.
Qed.

(** In a list without repetition, dropping the first occurrence drops
    them all. *)
Lemma remove_filter x l :
  NoDup l -> PyList.remove x l = filter (fun y => negb (Z.eqb y x)) l.
Proof.
  induction 1 as [|y l Hy Hl IH]; cbn [PyList.remove filter]; [reflexivity|].
  destruct (Z.eqb_spec y x) as [->|Hne]; cbn [negb].
  - symmetry. now apply filter_absent.
  - now rewrite IH.
Qed.

Lemma purged_cascaded task_id sched :
  schedule_wf sched ->
  flat_map (purged_entry task_id) sched = cascaded task_id sched.
Proof.
  intros [_ He]. unfold cascaded.
  induction sched as [|[k ids] sched IH]; [reflexivity|].
  cbn [flat_map map filter fst snd].
  destruct (He k ids (or_introl eq_refl)) as [Hne Hnd].
  rewrite IH by (intros k' ids' Hin; apply (He k'); now right).
  unfold purged_entry. cbn [fst snd].
  destruct (PyList.contains task_id ids) eqn:Ec.
  - rewrite (remove_filter _ _ Hnd).
    now destruct (filter (fun x => negb (Z.eqb x task_id)) ids).
  - apply contains_false in Ec. rewrite (filter_absent _ _ Ec).
    destruct ids; [congruence | reflexivity].
Qed.

(** The other ids of a slot are in that slot still. *)
Lemma cascaded_keeps_others task_id sched time_slot ids x :
  In (time_slot, ids) sched -> In x ids -> x <> task_id ->
  In (time_slot, filter (fun y => negb (Z.eqb y task_id)) ids)
     (cascaded task_id sched)
  /\ In x (filter (fun y => negb (Z.eqb y task_id)) ids).
Proof.
  intros Hin Hx Hne.
  assert (Hx' : In x (filter (fun y => negb (Z.eqb y task_id)) ids)).
  { apply filter_In. split; [exact Hx|].
    apply negb_true_iff, Z.eqb_neq, Hne. }
  split; [|exact Hx'].
  unfold cascaded. apply filter_In. split.
  - apply in_map_iff. now exists (time_slot, ids).
  - cbn [snd].
    now destruct (filter (fun y => negb (Z.eqb y task_id)) ids).
Qed.

End CascadeFacts.

(** ** The claims about the schedule index *)

Section ScheduleClaims.
Import PyListFacts PyDictFacts ScheduleFacts TaskFacts StepFacts.
Local Open Scope string_scope.
Local Open Scope list_scope.

(** C2, as the claim states it, fails: [schedule_task] does not look
    the id up, so on the empty store it puts the id 99 of no task in
    the slot 08:00. *)
Lemma schedule_task_unknown_id_accepted :
  let self := run [OpSchedule 99 "08:00"] in
  reachable self
  /\ schedule self = [("08:00", [99%Z])]
  /\ tasks self = []
  /\ ~ slots_refer_to_tasks self.
Proof.
  intros self. split; [apply run_reachable|].
  split; [reflexivity|]. split; [reflexivity|].
  intros H.
  assert (E : has_task 99 self = true)
    by (apply (H "08:00" [99%Z]); left; reflexivity).
  discriminate E.
Qed.

Lemma has_task_app x l t :
  existsb (fun t' => Z.eqb (id t') x) (l ++ [t])
  = existsb (fun t' => Z.eqb (id t') x) l || Z.eqb (id t) x.
Proof. rewrite existsb_app. cbn [existsb]. now rewrite orb_false_r. Qed.

(** The ids of the slots after a successful [schedule_task]: those of
    before, and the scheduled one. *)
Lemma inserted_ids (P : Z -> Prop) task_id k sched :
  (forall k' ids x, In (k', ids) sched -> In x ids -> P x) ->
  P task_id ->
  forall k' ids x,
    In (k', ids) (slot_insert task_id k sched) -> In x ids -> P x.
Proof.
  intros Hold Hnew k' ids x Hin Hx. apply In_slot_insert in Hin.
  destruct Hin as [Hin|[-> Hshape]]; [eapply Hold; eauto|].
  destruct (PyDict.get k sched) as [ids0|] eqn:E.
  - destruct Hshape as [_ ->]. apply in_app_iff in Hx.
    destruct Hx as [Hx|[<-|[]]]; [|exact Hnew].
    eapply Hold; [eapply get_In, E | exact Hx].
  - subst ids. destruct Hx as [<-|[]]. exact Hnew.
Qed.

Lemma step_slots_refer self o :
  schedule_wf (schedule self) -> slots_refer_to_tasks self ->
  schedules_present self o -> slots_refer_to_tasks (step self o).
Proof.
  intros Hwf Href Hok. pose proof (proj1 Hwf) as Hd.
  unfold slots_refer_to_tasks, has_task in *.
  destruct o as [now t p st|i|i|i ts|i]; cbn [step].
  - rewrite add_task_eq. cbn [fst schedule tasks].
    assert (Hold : forall k ids x, In (k, ids) (schedule self) -> In x ids ->
              existsb (fun t' => Z.eqb (id t') x)
                (tasks self ++ [new_task now self t p]) = true).
    { intros k ids x Hin Hx. rewrite has_task_app, (Href k ids x Hin Hx).
      reflexivity. }
    destruct (truthy st) as [ts|]; [|exact Hold].
    destruct (Time.strptime ts); [|exact Hold].
    apply inserted_ids; [exact Hold|].
    rewrite has_task_app. cbn [new_task id]. rewrite Z.eqb_refl.
    apply orb_true_r.
  - rewrite remove_task_eq by exact Hd.
    destruct (pop_first i (tasks self)) as [l'|] eqn:E; [|exact Href].
    cbn [fst schedule tasks]. intros k ids x Hin Hx.
    assert (Hxi : x <> i).
    { intros ->. eapply purged_gone; eauto. }
    rewrite (pop_first_other _ _ _ _ E Hxi).
    apply In_purged in Hin.
    destruct Hin as (ids0 & Hin0 & [[_ ->]|(_ & -> & _)]).
    + eapply Href; eauto.
    + eapply Href; [exact Hin0|]. eapply remove_incl, Hx.
  - unfold mark_complete.
    destruct (complete_first i (tasks self)) as [l'|] eqn:E; [|exact Href].
    cbn [fst schedule tasks]. intros k ids x Hin Hx.
    rewrite (existsb_ids x _ _ (complete_first_ids _ _ _ E)).
    eapply Href; eauto.
  - rewrite schedule_task_eq.
    destruct (Time.strptime ts); [|exact Href].
    cbn [fst schedule tasks]. apply inserted_ids; [exact Href | exact Hok].
  - rewrite unschedule_task_eq by exact Hd.
    cbn [fst schedule tasks]. intros k ids x Hin Hx.
    apply In_purged in Hin.
    destruct Hin as (ids0 & Hin0 & [[_ ->]|(_ & -> & _)]).
    + eapply Href; eauto.
    + eapply Href; [exact Hin0|]. eapply remove_incl, Hx.
Qed.

(** C2, amended: in every store reached from the empty one by
    operations among which [schedule_task] is only called with the id
    of a task that is in the store at that call, every id of every slot
    is the id of a task of the store. *)
Theorem scheduled_ids_are_tasks self :
  reachable_by schedules_present self -> slots_refer_to_tasks self.
Proof.
  intros Hr. induction Hr as [|self o Hr IH Hok].
  - intros k ids x [].
  - apply step_slots_refer; auto. eapply reachable_schedule_wf, Hr.
Qed.

Lemma scheduled_ids_are_tasks_witness :
  slots_refer_to_tasks
    (step (step (step empty_store (OpAdd "t0" "a" "high" (Some "09:30")))
                (OpSchedule 1 "10:00"))
          (OpRemove 1)).
Proof.
  apply scheduled_ids_are_tasks.
  apply reach_step; [|exact I].
  apply reach_step; [|reflexivity].
  apply reach_step; [|exact I].
  apply reach_empty.
Defined.




(** C6, as the claim states it, fails, on stores that no operation
    leaves but a file can hold: with the id 1 twice in the slot 08:00 and
    with an empty slot 09:00, [remove_task] of the task 1 returns True,
    the slot 08:00 has the id 1 still and the slot 09:00 is empty still.
    The store is the one the constructor loads from the file that
    [save_data] writes for it. *)
Lemma remove_task_loaded_store_keeps_id :
  let self :=
    {| tasks := [mkTask 1 "a" "high" false "t0"];
       schedule := [("08:00", [1; 1]%Z); ("09:00", [])] |} in
  has_task 1 self = true
  /\ remove_task self 1
     = ({| tasks := []; schedule := [("08:00", [1%Z]); ("09:00", [])] |},
        true)
  /\ in_slot 1 "08:00" (fst (remove_task self 1)) = true
  /\ In ("09:00", []) (schedule (fst (remove_task self 1)))
  /\ fst (@init string JsonText.text_codec
            (Some (@save_data string JsonText.text_codec self)))
     = Loaded self.
Proof.
  intros self. repeat split.
  right. left. reflexivity.
Qed.

(** C6, amended: on a store whose schedule index is as the operations
    leave it (distinct slots, no empty slot, no id twice in a slot),
    [remove_task] with the id of a task of the store returns True, takes
    the first task of that id out of the list, takes the id out of every
    slot that has it, the other ids of the slot staying in their order,
    and deletes the slots that this empties, the other slots staying as
    they were and all in their order; afterwards no slot has the id and
    no slot is empty.  With an id of no task it returns False and changes
    nothing. *)
Theorem remove_task_cascades self task_id :
  schedule_wf (schedule self) ->
  (has_task task_id self = true ->
   exists pre t suf,
     tasks self = pre ++ t :: suf /\ id t = task_id
     /\ Forall (fun t' => id t' <> task_id) pre
     /\ remove_task self task_id
        = ({| tasks := pre ++ suf;
              schedule := cascaded task_id (schedule self) |},
           true)
     /\ (forall time_slot,
           in_slot task_id time_slot (fst (remove_task self task_id)) = false)
     /\ (forall time_slot ids,
           In (time_slot, ids) (schedule (fst (remove_task self task_id))) ->
           ids <> [])
     /\ (forall time_slot ids,
           In (time_slot, ids) (schedule self) ->
           ~ In task_id ids ->
           In (time_slot, ids) (schedule (fst (remove_task self task_id))))
     /\ (forall time_slot ids x,
           In (time_slot, ids) (schedule self) ->
           In x ids -> x <> task_id ->
           exists ids',
             In (time_slot, ids') (schedule (fst (remove_task self task_id)))
             /\ In x ids'))
  /\ (has_task task_id self = false ->
      remove_task self task_id = (self, false)).
Proof.
  intros Hwf. pose proof (proj1 Hwf) as Hd. unfold has_task.
  rewrite remove_task_eq by exact Hd. split.
  - intros Hhas.
    destruct (pop_first task_id (tasks self)) as [l'|] eqn:E.
    + apply pop_first_split in E.
      destruct E as (pre & t & suf & Hl & -> & Hid & Hpre).
      exists pre, t, suf.
      split; [exact Hl|]. split; [exact Hid|]. split; [exact Hpre|].
      split; [now rewrite (CascadeFacts.purged_cascaded _ _ Hwf)|].
      cbn [fst schedule]. split; [|split; [|split]].
      * intros time_slot. unfold in_slot. cbn [schedule].
        destruct (PyDict.get time_slot
                    (flat_map (purged_entry task_id) (schedule self)))
          as [ids|] eqn:Eg; [|reflexivity].
        apply contains_false. eapply purged_gone; [exact Hwf|].
        eapply get_In, Eg.
      * intros time_slot ids Hin.
        apply (schedule_wf_purged task_id) in Hwf.
        now apply (proj2 Hwf time_slot ids).
      * intros time_slot ids Hin Hc. apply purged_keeps; [exact Hin|].
        now apply contains_false.
      * intros time_slot ids x Hin Hx Hne.
        rewrite (CascadeFacts.purged_cascaded _ _ Hwf).
        exists (filter (fun y => negb (Z.eqb y task_id)) ids).
        now apply CascadeFacts.cascaded_keeps_others.
    + apply pop_first_none in E. congruence.
  - intros Hno. apply pop_first_none in Hno. now rewrite Hno.
Qed.

Lemma remove_task_cascades_witness :
  let self :=
    run [OpAdd "t0" "a" "high" (Some "09:30"); OpAdd "t1" "b" "low" None;
         OpSchedule 2 "09:30"; OpSchedule 1 "10:00"] in
  (forall time_slot, in_slot 1 time_slot (fst (remove_task self 1)) = false)
  /\ (exists ids',
        In ("09:30", ids') (schedule (fst (remove_task self 1)))
        /\ In 2%Z ids')
  /\ remove_task self 7 = (self, false).
Proof.
  intros self.
  assert (Hwf : schedule_wf (schedule self))
    by (eapply reachable_schedule_wf, run_reachable).
  destruct (proj1 (remove_task_cascades self 1 Hwf) eq_refl)
    as (pre & t & suf & _ & _ & _ & _ & Hgone & _ & _ & Hothers).
  split; [exact Hgone|]. split.
  - apply (Hothers "09:30" [1; 2]%Z 2%Z).
    + left. reflexivity.
    + right. left. reflexivity.
    + discriminate.
  - apply (proj2 (remove_task_cascades self 7 Hwf)). reflexivity.
Defined.

End ScheduleClaims.

(** ** The claim about time strings *)

Section TimeClaims.
Import PyListFacts PyDictFacts ScheduleFacts StepFacts TimeFacts.
Local Open Scope string_scope.
Local Open Scope list_scope.

Lemma digit_char_digit n :
  (0 <= n <= 9)%Z ->
  Time.is_digit (Time.digit_char n) = true
  /\ Time.digit_val (Time.digit_char n) = n.
Proof.
  intros Hn. unfold Time.is_digit, Time.digit_val, Time.digit_char.
  rewrite nat_ascii_embedding by lia. split.
  - apply andb_true_iff. split; apply Nat.leb_le; lia.
  - lia.
Qed.

Lemma digits12_range bound s v :
  (9 <= bound)%Z -> digits12 bound s = Some v -> (0 <= v <= bound)%Z.
Proof.
  intros Hb. unfold digits12.
  destruct s as [|d1 [|d2 [|d3 r]]]; try discriminate.
  - destruct (Time.is_digit d1) eqn:E; [|discriminate].
    intros [= <-]. apply digit_val_range in E. lia.
  - destruct (Time.is_digit d1) eqn:E1; [|discriminate].
    destruct (Time.is_digit d2) eqn:E2; [|discriminate].
    cbn [andb].
    destruct (Z.leb_spec (10 * Time.digit_val d1 + Time.digit_val d2) bound)
      as [Hle|Hgt]; [|discriminate].
    intros E. apply digit_val_range in E1. apply digit_val_range in E2.
    assert (Ev : (10 * Time.digit_val d1 + Time.digit_val d2)%Z = v)
      by congruence.
    lia.
Qed.

(** What [strftime] writes is in two-digit form. *)
Lemma strftime_strict h m :
  (0 <= h <= 23)%Z -> (0 <= m <= 59)%Z ->
  strict_HHMM (Time.strftime (h, m)) = true.
Proof.
  intros Hh Hm. unfold strict_HHMM, Time.strftime, Time.pad2.
  cbn [fst snd list_ascii_of_string].
  destruct (digit_char_digit (h / 10)) as [A1 B1];
    [split; [apply Z.div_pos | apply Z.div_le_upper_bound]; lia|].
  destruct (digit_char_digit (h mod 10)) as [A2 B2];
    [pose proof (Z.mod_pos_bound h 10); lia|].
  destruct (digit_char_digit (m / 10)) as [A3 B3];
    [split; [apply Z.div_pos | apply Z.div_le_upper_bound]; lia|].
  destruct (digit_char_digit (m mod 10)) as [A4 B4];
    [pose proof (Z.mod_pos_bound m 10); lia|].
  rewrite A1, A2, A3, A4, B1, B2, B3, B4, Ascii.eqb_refl. cbn [andb].
  rewrite <- !Z.div_mod by lia.
  apply andb_true_iff. split; apply Z.leb_le; lia.
Qed.

(** C3, as the claim states it, fails: "9:5" is not in two-digit form,
    and [schedule_task] takes it, for the slot 09:05. *)
Lemma schedule_task_one_digit_accepted :
  strict_HHMM "9:5" = false
  /\ schedule_task empty_store 1 "9:5"
     = ({| tasks := []; schedule := [("09:05", [1%Z])] |}, true).
Proof. split; reflexivity. Qed.

(** C3, amended: among the strings of characters below code point 256,
    [schedule_task] accepts exactly the strings [H:M] with an hour of one
    or two digits, 0 to 23, and a minute of one or two digits, 0 to 59,
    and returns False for every other such string; the slot it stores
    the id in is the two-digit form of that time, which is the input
    itself when the input is in two-digit form.  Strings with characters
    above code point 255, among them the decimal digits of other scripts
    that [\d] matches too, are not spoken of. *)
Theorem schedule_task_accepts_one_or_two_digits self task_id time_str :
  let after := fst (schedule_task self task_id time_str) in
  (snd (schedule_task self task_id time_str) = true
   <-> lenient_HM time_str <> None)
  /\ (lenient_HM time_str = None ->
      schedule_task self task_id time_str = (self, false))
  /\ (forall t,
        lenient_HM time_str = Some t ->
        strict_HHMM (Time.strftime t) = true
        /\ in_slot task_id (Time.strftime t) after = true)
  /\ (strict_HHMM time_str = true ->
      snd (schedule_task self task_id time_str) = true
      /\ in_slot task_id time_str after = true).
Proof.
  intros after.
  assert (Hslot : forall t, Time.strptime time_str = Some t ->
            in_slot task_id (Time.strftime t) after = true).
  { intros t E. subst after. rewrite schedule_task_eq, E.
    unfold in_slot. cbn [fst schedule].
    destruct (slot_insert_holds task_id (Time.strftime t) (schedule self))
      as (ids & -> & Hc). exact Hc. }
  subst after. rewrite schedule_task_eq in *.
  rewrite <- strptime_lenient.
  split; [|split; [|split]].
  - destruct (Time.strptime time_str); cbn [snd];
      split; congruence.
  - now intros ->.
  - intros [h m] E. split; [|now apply Hslot].
    rewrite strptime_lenient in E. unfold lenient_HM in E.
    destruct (split_colon _) as [[hs ms]|]; [|discriminate].
    destruct (digits12 23 hs) as [h'|] eqn:Eh; [|discriminate].
    destruct (digits12 59 ms) as [m'|] eqn:Em; [|discriminate].
    injection E as <- <-.
    apply digits12_range in Eh, Em; try lia.
    now apply strftime_strict.
  - intros Hs. destruct (strict_round_trip _ Hs) as (t & E & Et).
    split; [now rewrite E|].
    pose proof (Hslot t E) as Hin. rewrite Et in Hin. exact Hin.
Qed.

End TimeClaims.

(** ** The text codec reads back what it writes *)

Module JsonTextFacts.
Import JsonText.

Lemma numchars_of_uint d :
  Forall (fun c => is_numchar c = true)
    (list_ascii_of_string (NilEmpty.string_of_uint d)).
Proof.
  induction d; cbn [NilEmpty.string_of_uint list_ascii_of_string];
    constructor; auto.
Qed.

Lemma numchars_of_int n :
  Forall (fun c => is_numchar c = true) (print_int n).
Proof.
  unfold print_int. destruct (Z.to_int n) as [d|d];
    cbn [NilEmpty.string_of_int list_ascii_of_string].
  - apply numchars_of_uint.
  - constructor; [reflexivity | apply numchars_of_uint].
Qed.

Lemma span_num_app tok rest :
  Forall (fun c => is_numchar c = true) tok -> no_num_head rest ->
  span_num (tok ++ rest) = (tok, rest).
Proof.
  intros Htok Hrest. induction Htok as [|c tok Hc _ IH]; cbn [app span_num].
  - destruct rest as [|c r]; [reflexivity|].
    cbn [no_num_head] in Hrest. cbn [span_num]. now rewrite Hrest.
  - now rewrite Hc, IH.
Qed.

Lemma parse_print_int n rest :
  no_num_head rest -> parse_int (print_int n ++ rest) = Some (n, rest).
Proof.
  intros Hrest. unfold parse_int.
  rewrite (span_num_app _ _ (numchars_of_int n) Hrest).
  unfold print_int.
  rewrite string_of_list_ascii_of_string, NilEmpty.isi, DecimalZ.of_to.
  reflexivity.
Qed.

Lemma print_int_head n :
  exists c tl, print_int n = c :: tl /\ is_numchar c = true.
Proof.
  pose proof (numchars_of_int n) as Hall.
  destruct (print_int n) as [|c tl] eqn:E.
  - exfalso. unfold print_int in E.
    destruct n as [|p|p]; cbn [Z.to_int NilEmpty.string_of_int] in E;
      try discriminate E.
    pose proof (DecimalPos.Unsigned.to_uint_nonnil p) as Hp.
    destruct (Pos.to_uint p); try discriminate E. now apply Hp.
  - exists c, tl. split; [reflexivity|]. now inversion Hall.
Qed.

Lemma read_string_escape l rest :
  read_string (escape l ++ dquote :: rest) = Some (l, rest).
Proof.
  induction l as [|c l IH]; cbn [escape app read_string].
  - reflexivity.
  - destruct (needs_escape c) eqn:E; cbn [app read_string].
    + rewrite E, IH. reflexivity.
    + unfold needs_escape in E. apply orb_false_iff in E.
      destruct E as [E1 E2]. now rewrite E1, E2, IH.
Qed.

Lemma parse_print_string s rest :
  parse_string (escape (list_ascii_of_string s) ++ dquote :: rest)
  = Some (s, rest).
Proof.
  unfold parse_string.
  now rewrite read_string_escape, string_of_list_ascii_of_string.
Qed.

Lemma print_string_app s tail :
  print_string s ++ tail
  = dquote :: escape (list_ascii_of_string s) ++ dquote :: tail.
Proof.
  unfold print_string. cbn [app]. now rewrite <- app_assoc.
Qed.

(** A character of a number is none of the other characters the parser
    looks for. *)
Lemma numchar_other c d :
  is_numchar c = true -> is_numchar d = false -> Ascii.eqb c d = false.
Proof.
  intros Hc Hd. destruct (Ascii.eqb_spec c d) as [->|]; congruence.
Qed.

Lemma print_obj members :
  print (JObj members) = "{"%char :: print_items print_member "}" members.
Proof. reflexivity. Qed.

(** A printed value does not start like the end of an array. *)
Lemma print_head v :
  exists c tl, print v = c :: tl /\ Ascii.eqb c "]" = false.
Proof.
  destruct v as [|[|]|n|s|items|members];
    try (eexists _, _; split; reflexivity).
  destruct (print_int_head n) as (c & tl & E & Hc).
  exists c, tl. split; [exact E|]. now apply numchar_other.
Qed.

Lemma more_no_num {A : Type} (p : A -> list ascii) close l rest :
  is_numchar close = false ->
  no_num_head (print_more p close l ++ rest).
Proof. intros Hc. destruct l; cbn; auto. Qed.

Lemma length_more {A : Type} (p : A -> list ascii) close x l :
  List.length (print_more p close (x :: l))
  = S (List.length (p x) + List.length (print_more p close l)).
Proof. cbn [print_more List.length]. now rewrite length_app. Qed.

Ltac fuel_bounds :=
  repeat match goal with
    | H : context [List.length (_ ++ _)] |- _ => rewrite length_app in H
    | H : context [List.length (_ :: _)] |- _ => cbn [List.length] in H
    end;
  lia.

Theorem parse_print fuel :
  (forall v rest,
      List.length (print v) <= fuel -> no_num_head rest ->
      parse_value fuel (print v ++ rest) = Some (v, rest))
  /\ (forall items rest,
        List.length (print_more print "]" items) <= fuel ->
        parse_more fuel (print_more print "]" items ++ rest)
        = Some (items, rest))
  /\ (forall kv rest,
        List.length (print_member kv) <= fuel -> no_num_head rest ->
        parse_member fuel (print_member kv ++ rest) = Some (kv, rest))
  /\ (forall members rest,
        List.length (print_more print_member "}" members) <= fuel ->
        parse_more_members fuel (print_more print_member "}" members ++ rest)
        = Some (members, rest)).
Proof.
  induction fuel as [|f (IHv & IHm & IHk & IHo)].
  - repeat split.
    + intros v rest Hlen. destruct (print_head v) as (c & tl & E & _).
      rewrite E in Hlen. cbn in Hlen. lia.
    + intros [|x l] rest Hlen; cbn in Hlen; lia.
    + intros [k x] rest Hlen. unfold print_member, print_string in Hlen.
      cbn in Hlen. lia.
    + intros [|x l] rest Hlen; cbn in Hlen; lia.
  - split; [|split; [|split]].
    + intros v rest Hlen Hrest.
      destruct v as [|[|]|n|s|items|members].
      * reflexivity.
      * reflexivity.
      * reflexivity.
      * destruct (print_int_head n) as (c & tl & E & Hc).
        change (print (JInt n)) with (print_int n).
        pose proof (parse_print_int n rest Hrest) as Hp.
        rewrite E in *. cbn [app parse_value] in *.
        now rewrite Hc, Hp.
      * change (print (JStr s)) with (print_string s).
        rewrite print_string_app. cbn [parse_value].
        change (is_numchar dquote) with false.
        change (Ascii.eqb dquote "n") with false.
        change (Ascii.eqb dquote "t") with false.
        change (Ascii.eqb dquote "f") with false.
        change (Ascii.eqb dquote dquote) with true.
        cbv iota. now rewrite parse_print_string.
      * change (print (JArr items))
          with ("["%char :: print_items print "]" items) in *.
        cbn [app parse_value].
        change (is_numchar "[") with false.
        change (Ascii.eqb "[" "n") with false.
        change (Ascii.eqb "[" "t") with false.
        change (Ascii.eqb "[" "f") with false.
        change (Ascii.eqb "[" dquote) with false.
        change (Ascii.eqb "[" "[") with true.
        cbv iota.
        destruct items as [|x xs]; [reflexivity|].
        cbn [print_items] in *.
        rewrite <- app_assoc.
        destruct (print x ++ print_more print "]" xs ++ rest)
          as [|c' r'] eqn:E'.
        { destruct (print_head x) as (c & tl & E & _).
          rewrite E in E'. discriminate E'. }
        assert (Hc : Ascii.eqb c' "]" = false).
        { destruct (print_head x) as (c & tl & E & Hc).
          rewrite E in E'. now injection E' as <- _. }
        rewrite Hc, <- E'.
        rewrite IHv; [|fuel_bounds|now apply more_no_num].
        rewrite IHm by fuel_bounds. reflexivity.
      * rewrite print_obj in *.
        cbn [app parse_value].
        change (is_numchar "{") with false.
        change (Ascii.eqb "{" "n") with false.
        change (Ascii.eqb "{" "t") with false.
        change (Ascii.eqb "{" "f") with false.
        change (Ascii.eqb "{" dquote) with false.
        change (Ascii.eqb "{" "[") with false.
        change (Ascii.eqb "{" "{") with true.
        cbv iota.
        destruct members as [|[k x] kvs]; [reflexivity|].
        cbn [print_items] in *.
        rewrite <- app_assoc.
        destruct (print_member (k, x) ++ print_more print_member "}" kvs ++ rest)
          as [|c' r'] eqn:E'; [discriminate E'|].
        assert (Hc : Ascii.eqb c' "}" = false)
          by (now injection E' as <- _).
        rewrite Hc, <- E'.
        rewrite IHk; [|fuel_bounds|now apply more_no_num].
        rewrite IHo by fuel_bounds. reflexivity.
    + intros [|x xs] rest Hlen; [reflexivity|].
      rewrite length_more in Hlen.
      cbn [print_more app parse_more].
      change (Ascii.eqb "," "]") with false.
      change (Ascii.eqb "," ",") with true. cbv iota.
      rewrite <- app_assoc.
      rewrite IHv; [|lia|now apply more_no_num].
      rewrite IHm by lia. reflexivity.
    + intros [k x] rest Hlen Hrest.
      unfold print_member in *. rewrite <- app_assoc.
      rewrite length_app in Hlen. cbn [List.length] in Hlen.
      rewrite print_string_app. cbn [parse_member app].
      change (Ascii.eqb dquote dquote) with true. cbv iota.
      rewrite parse_print_string.
      change (Ascii.eqb ":" ":") with true. cbv iota.
      rewrite IHv; [reflexivity|lia|exact Hrest].
    + intros [|kv kvs] rest Hlen; [reflexivity|].
      rewrite length_more in Hlen.
      cbn [print_more app parse_more_members].
      change (Ascii.eqb "," "}") with false.
      change (Ascii.eqb "," ",") with true. cbv iota.
      rewrite <- app_assoc.
      rewrite IHk; [|lia|now apply more_no_num].
      rewrite IHo by lia. reflexivity.
Qed.

(** The text codec keeps the promise of [codec_sound], for every
    document. *)
Theorem loads_dumps v : loads (dumps v) = Some v.
Proof.
  unfold loads, dumps. rewrite list_ascii_of_string_of_list_ascii.
  rewrite <- (app_nil_r (print v)) at 2.
  rewrite (proj1 (parse_print _)); [reflexivity | lia | exact I].
Qed.

Lemma text_codec_sound : codec_sound (blob := string).
Proof. intros v _. apply loads_dumps. Qed.

End JsonTextFacts.

(** ** The claims about persistence *)

Module PersistenceFacts.
Local Open Scope string_scope.
Local Open Scope list_scope.

Lemma tasks_of_to_json l : tasks_of_json (tasks_to_json l) = Some l.
Proof.
  unfold tasks_of_json, tasks_to_json.
  induction l as [|[i t p c ca] l IH]; [reflexivity|].
  cbn [map traverse]. rewrite IH. reflexivity.
Qed.

Lemma ints_of_to_json ids : traverse int_of_json (map JInt ids) = Some ids.
Proof.
  induction ids as [|n ids IH]; [reflexivity|].
  cbn [map traverse int_of_json]. now rewrite IH.
Qed.

Lemma schedule_of_to_json sched :
  schedule_of_json (schedule_to_json sched) = Some sched.
Proof.
  unfold schedule_of_json, schedule_to_json.
  induction sched as [|[k ids] sched IH]; [reflexivity|].
  cbn [map traverse slot_of_json]. rewrite ints_of_to_json, IH.
  reflexivity.
Qed.

Lemma tasks_to_json_wf l : json_wf (tasks_to_json l).
Proof.
  unfold tasks_to_json. cbn [json_wf].
  induction l as [|t l IH]; cbn [map fold_right]; [exact I|].
  split; [|exact IH].
  cbn. split; [|tauto].
  repeat constructor; cbn; intuition discriminate.
Qed.

Lemma ints_to_json_wf ids : json_wf (JArr (map JInt ids)).
Proof.
  cbn [json_wf]. induction ids; cbn [map fold_right json_wf]; auto.
Qed.

Lemma schedule_to_json_keys sched :
  map fst (map (fun '(time_slot, ids) => (time_slot, JArr (map JInt ids)))
             sched)
  = PyDict.keys sched.
Proof.
  unfold PyDict.keys. rewrite map_map. apply map_ext. now intros [k ids].
Qed.

Lemma schedule_to_json_wf sched :
  PyDict.dict_wf sched -> json_wf (schedule_to_json sched).
Proof.
  intros Hwf. unfold schedule_to_json. cbn [json_wf].
  rewrite schedule_to_json_keys. split; [exact Hwf|].
  clear Hwf. induction sched as [|[k ids] sched IH];
    cbn [map fold_right]; [exact I|].
  split; [apply ints_to_json_wf | exact IH].
Qed.

(** The document [save_data] dumps is one the library takes. *)
Lemma store_document_wf self :
  PyDict.dict_wf (schedule self) ->
  json_wf (JObj [("tasks", tasks_to_json (tasks self));
                 ("schedule", schedule_to_json (schedule self))]).
Proof.
  intros Hwf. cbn [json_wf map fst fold_right]. split.
  - repeat constructor; cbn; intuition discriminate.
  - split; [apply tasks_to_json_wf|].
    split; [now apply schedule_to_json_wf | exact I].
Qed.

End PersistenceFacts.

Section PersistenceClaims.
Import PersistenceFacts.
Context {blob : Type} `{JsonCodec blob}.
Local Open Scope string_scope.
Local Open Scope list_scope.

(** C8: with a [json] module that loads back what it dumps, the
    constructor run on the contents [save_data] wrote has the store that
    was saved: the same tasks with all their fields in the same order,
    the same slots with the same ids in the same order. *)
Theorem load_save_round_trip (self : TodoWithScheduler) :
  codec_sound -> PyDict.dict_wf (schedule self) ->
  init (Some (save_data self))
  = (Loaded self, ["Data loaded from todo_schedule.json"]).
Proof.
  intros Hsound Hwf. unfold init, load_data, save_data.
  rewrite (Hsound _ (store_document_wf self Hwf)).
  cbn [PyDict.get String.eqb Ascii.eqb Bool.eqb].
  rewrite tasks_of_to_json, schedule_of_to_json.
  now destruct self.
Qed.

(** C9, on the code: the [except] clause of [load_data] recovers from
    JSONDecodeError only.  Contents that [json.load] reads as a document
    that is no object, the array of 1 and 2 for instance, make
    [data.get] raise AttributeError: the constructor raises, nothing is
    printed and no empty store is returned. *)
Theorem init_not_object_raises (b : blob) v :
  json_load b = Some v ->
  (forall members, v <> JObj members) ->
  init (Some b) = (AttributeError, [])
  /\ fst (init (Some b)) <> Loaded empty_store.
Proof.
  intros E Hv. unfold init, load_data. rewrite E.
  destruct v; try (split; [reflexivity | discriminate]).
  now destruct (Hv members).
Qed.

(** What the constructor does recover from: on a missing file, or on
    contents the [json] module rejects with JSONDecodeError, it returns
    with the empty store; the missing file prints nothing and the
    rejected contents print one line. *)
Theorem load_missing_or_malformed :
  init None = (Loaded empty_store, [])
  /\ forall b : blob,
       json_load b = None ->
       init (Some b)
       = (Loaded empty_store, ["Error loading data from todo_schedule.json"]).
Proof.
  split; [reflexivity|].
  intros b E. unfold init, load_data. now rewrite E.
Qed.

(** Contents that are a document but not an object are not covered by
    the [except] clause: [data.get] raises AttributeError. *)
Remark load_data_not_object self (b : blob) v :
  json_load b = Some v ->
  (forall members, v <> JObj members) ->
  load_data self (Some b) = (AttributeError, []).
Proof.
  intros E Hv. unfold load_data. rewrite E.
  destruct v; try reflexivity. now destruct (Hv members).
Qed.

End PersistenceClaims.

Section PersistenceWitnesses.
Import JsonText JsonTextFacts StepFacts.
Local Open Scope string_scope.
Local Open Scope list_scope.

Lemma load_save_round_trip_witness :
  let self :=
    run [OpAdd "2026-01-01 10:00" "say \hi/" "high" (Some "09:30");
         OpAdd "2026-01-01 10:05" "b" "low" None; OpSchedule 2 "9:5";
         OpComplete 1] in
  init (Some (save_data (blob := string) self))
  = (Loaded self, ["Data loaded from todo_schedule.json"]).
Proof.
  intros self.
  apply (load_save_round_trip (blob := string) self).
  - exact text_codec_sound.
  - eapply proj1, reachable_schedule_wf, run_reachable.
Defined.

Lemma init_not_object_raises_witness :
  init (blob := string) (Some "[1,2]") = (AttributeError, [])
  /\ fst (init (blob := string) (Some "[1,2]")) <> Loaded empty_store.
Proof.
  apply (init_not_object_raises (blob := string) "[1,2]"
           (JArr [JInt 1; JInt 2])).
  - reflexivity.
  - discriminate.
Defined.

Lemma load_missing_or_malformed_witness :
  init (Some "[1,2")
  = (Loaded empty_store, ["Error loading data from todo_schedule.json"]).
Proof.
  apply (proj2 (load_missing_or_malformed (blob := string))).
  reflexivity.
Defined.

End PersistenceWitnesses.

(** ** The claims at concrete inputs *)

Section Witnesses.
Import StepFacts.
Local Open Scope string_scope.
Local Open Scope list_scope.

Lemma schedule_task_accepts_one_or_two_digits_witness :
  snd (schedule_task empty_store 1 "09:05") = true
  /\ in_slot 1 "09:05" (fst (schedule_task empty_store 1 "09:05")) = true.
Proof.
  apply (proj2 (proj2 (proj2
           (schedule_task_accepts_one_or_two_digits empty_store 1 "09:05")))).
  reflexivity.
Defined.

Lemma add_task_stores_priority_as_given_witness :
  menu_priority "High" = "high" /\ menu_priority "URGENT" = "medium".
Proof.
  split.
  - apply (add_task_stores_priority_as_given
             "t0" empty_store "a" "x" None "High" None).
    cbn. auto.
  - apply (add_task_stores_priority_as_given
             "t0" empty_store "a" "x" None "URGENT" None).
    cbn. intuition discriminate.
Defined.

Lemma mark_complete_frame_witness :
  let self := run [OpAdd "t0" "a" "high" (Some "09:30")] in
  fst (mark_complete self 7) = self.
Proof.
  intros self.
  apply (proj1 (proj2 (proj2 (mark_complete_frame self 7)))).
  reflexivity.
Defined.

End Witnesses.

(** ** More on the schedule index *)

Module SlotFacts.
Import PyListFacts PyDictFacts ScheduleFacts.

Lemma In_get {V : Type} k (v : V) d :
  PyDict.dict_wf d -> In (k, v) d -> PyDict.get k d = Some v.
Proof.
  unfold PyDict.dict_wf.
  induction d as [|[k' v'] d IH]; cbn [In PyDict.get PyDict.keys map fst];
    [tauto|].
  intros Hnd [E|Hin]; inversion Hnd as [|? ? Hk Hd]; subst.
  - injection E as -> ->. now rewrite String.eqb_refl.
  - destruct (String.eqb_spec k' k) as [->|Hne].
    + exfalso. apply Hk. eapply In_keys, Hin.
    + now apply IH.
Qed.

(** Where the entry of a key is. *)
Lemma get_split {V : Type} k (v : V) d :
  PyDict.get k d = Some v ->
  exists pre suf, d = pre ++ (k, v) :: suf /\ ~ In k (PyDict.keys pre).
Proof.
  induction d as [|[k' v'] d IH]; cbn [PyDict.get]; [discriminate|].
  destruct (String.eqb_spec k' k) as [->|Hne].
  - intros [= ->]. exists [], d. split; [reflexivity | intros []].
  - intros E. destruct (IH E) as (pre & suf & -> & Hpre).
    exists ((k', v') :: pre), suf. split; [reflexivity|].
    cbn [PyDict.keys map fst In]. intros [E'|Hin]; [congruence|].
    now apply Hpre.
Qed.

(** The id is in no slot: said of the entries. *)
Lemma unscheduled_entries task_id self :
  PyDict.dict_wf (schedule self) ->
  (unscheduled task_id self <->
   forall k ids, In (k, ids) (schedule self) ->
                 PyList.contains task_id ids = false).
Proof.
  intros Hwf. unfold unscheduled, in_slot. split.
  - intros Hno k ids Hin. specialize (Hno k).
    now rewrite (In_get _ _ _ Hwf Hin) in Hno.
  - intros Hno k.
    destruct (PyDict.get k (schedule self)) as [ids|] eqn:E; [|reflexivity].
    eapply Hno, get_In, E.
Qed.

(** The loop over the slots changes nothing when no slot holds the
    id. *)
Lemma purged_unchanged task_id sched :
  (forall k ids, In (k, ids) sched -> PyList.contains task_id ids = false) ->
  flat_map (purged_entry task_id) sched = sched.
Proof.
  induction sched as [|[k ids] sched IH]; intros Hno; [reflexivity|].
  cbn [flat_map]. unfold purged_entry at 1. cbn [fst snd].
  rewrite (Hno k ids) by now left.
  cbn [app]. f_equal. apply IH. intros k' ids' Hin. apply (Hno k'). now right.
Qed.

(** The flag of the loop: some slot held the id. *)
Lemma purged_flag task_id self :
  PyDict.dict_wf (schedule self) ->
  existsb (fun e => PyList.contains task_id (snd e)) (schedule self) = true
  <-> exists k, in_slot task_id k self = true.
Proof.
  intros Hwf. rewrite existsb_exists. unfold in_slot. split.
  - intros ([k ids] & Hin & Hc). exists k.
    now rewrite (In_get _ _ _ Hwf Hin).
  - intros (k & Hk).
    destruct (PyDict.get k (schedule self)) as [ids|] eqn:E; [|discriminate].
    exists (k, ids). split; [eapply get_In, E | exact Hk].
Qed.

Lemma remove_last x l :
  ~ In x l -> PyList.remove x (l ++ [x]) = l.
Proof.
  induction l as [|y l IH]; cbn [app PyList.remove In]; intros Hn.
  - now rewrite Z.eqb_refl.
  - destruct (Z.eqb_spec y x) as [->|Hne]; [tauto|].
    f_equal. apply IH. tauto.
Qed.

Lemma flat_map_purged_app task_id a b :
  flat_map (purged_entry task_id) (a ++ b)
  = flat_map (purged_entry task_id) a ++ flat_map (purged_entry task_id) b.
Proof. apply flat_map_app. Qed.

(** Taking out the id that [slot_insert] has just put in gives the
    schedule back. *)
Lemma purged_insert task_id k sched :
  schedule_wf sched ->
  (forall k' ids, In (k', ids) sched -> PyList.contains task_id ids = false) ->
  flat_map (purged_entry task_id) (slot_insert task_id k sched) = sched.
Proof.
  intros [Hd He] Hno. unfold slot_insert.
  destruct (PyDict.get k sched) as [ids|] eqn:E.
  - pose proof (get_In _ _ _ E) as Hin.
    rewrite (Hno k ids Hin).
    destruct (get_split _ _ _ E) as (pre & suf & -> & Hpre).
    rewrite (set_skip _ _ _ _ _ Hpre).
    rewrite !flat_map_purged_app. cbn [flat_map].
    rewrite !purged_unchanged.
    + unfold purged_entry. cbn [fst snd].
      assert (Hc : PyList.contains task_id (ids ++ [task_id]) = true).
      { apply contains_In, in_app_iff. right. now left. }
      rewrite Hc, remove_last by (apply contains_false, (Hno k ids Hin)).
      destruct ids as [|x ids]; [now destruct (proj1 (He k [] Hin))|].
      reflexivity.
    + intros k' ids' Hin'. apply (Hno k'). apply in_app_iff. right. now right.
    + intros k' ids' Hin'. apply (Hno k'). apply in_app_iff. now left.
  - rewrite flat_map_purged_app, purged_unchanged by exact Hno.
    cbn [flat_map]. unfold purged_entry. cbn [fst snd PyList.contains].
    rewrite Z.eqb_refl. cbn [PyList.remove]. rewrite Z.eqb_refl.
    cbn [PyList.is_empty app]. apply app_nil_r.
Qed.

(** [slot_insert] twice is [slot_insert] once. *)
Lemma slot_insert_twice task_id k sched :
  slot_insert task_id k (slot_insert task_id k sched)
  = slot_insert task_id k sched.
Proof.
  destruct (slot_insert_holds task_id k sched) as (ids & E & Hc).
  unfold slot_insert at 1. now rewrite E, Hc.
Qed.

(** The time [strptime] returns is written in two-digit form. *)
Lemma strptime_strftime_strict s t :
  Time.strptime s = Some t -> strict_HHMM (Time.strftime t) = true.
Proof.
  rewrite TimeFacts.strptime_lenient. unfold lenient_HM.
  destruct (split_colon _) as [[hs ms]|]; [|discriminate].
  destruct (digits12 23 hs) as [h|] eqn:Eh; [|discriminate].
  destruct (digits12 59 ms) as [m|] eqn:Em; [|discriminate].
  intros [= <-].
  apply digits12_range in Eh, Em; try lia.
  now apply strftime_strict.
Qed.

Lemma slot_insert_keys task_id k sched :
  forall k', In k' (PyDict.keys (slot_insert task_id k sched)) ->
             k' = k \/ In k' (PyDict.keys sched).
Proof.
  intros k' Hin. unfold PyDict.keys in *. apply in_map_iff in Hin.
  destruct Hin as ([k0 ids] & <- & Hin). cbn [fst].
  apply In_slot_insert in Hin. destruct Hin as [Hin|[-> _]]; [|now left].
  right. apply in_map_iff. now exists (k0, ids).
Qed.

Lemma keys_canonical_insert task_id k sched :
  strict_HHMM k = true -> keys_canonical sched ->
  keys_canonical (slot_insert task_id k sched).
Proof.
  unfold keys_canonical. rewrite !Forall_forall. intros Hk Hs k' Hin.
  apply slot_insert_keys in Hin. destruct Hin as [->|Hin]; auto.
Qed.

Lemma keys_canonical_purged task_id sched :
  keys_canonical sched ->
  keys_canonical (flat_map (purged_entry task_id) sched).
Proof.
  unfold keys_canonical. rewrite !Forall_forall. intros Hs k Hin.
  apply Hs. eapply purged_keys, Hin.
Qed.

(** Every operation keeps the keys of the slots in two-digit form. *)
Lemma step_keys_canonical self o :
  PyDict.dict_wf (schedule self) -> keys_canonical (schedule self) ->
  keys_canonical (schedule (step self o)).
Proof.
  intros Hd Hk.
  destruct o as [now t p st|i|i|i ts|i]; cbn [step].
  - rewrite StepFacts.add_task_eq. cbn [fst schedule].
    destruct (truthy st) as [ts|]; [|exact Hk].
    destruct (Time.strptime ts) as [tm|] eqn:E; [|exact Hk].
    apply keys_canonical_insert; [|exact Hk].
    eapply strptime_strftime_strict, E.
  - rewrite StepFacts.remove_task_eq by exact Hd.
    destruct (pop_first i (tasks self)); [|exact Hk].
    cbn [fst schedule]. now apply keys_canonical_purged.
  - unfold mark_complete. now destruct (complete_first i (tasks self)).
  - rewrite schedule_task_eq.
    destruct (Time.strptime ts) as [tm|] eqn:E; [|exact Hk].
    cbn [fst schedule]. apply keys_canonical_insert; [|exact Hk].
    eapply strptime_strftime_strict, E.
  - rewrite StepFacts.unschedule_task_eq by exact Hd.
    cbn [fst schedule]. now apply keys_canonical_purged.
Qed.

(** What the stores reached by operations have: a schedule index of the
    data model, with keys in two-digit form. *)
Lemma reachable_canonical allowed self :
  reachable_by allowed self ->
  schedule_wf (schedule self) /\ keys_canonical (schedule self).
Proof.
  induction 1 as [|self o _ [Hwf Hk] _].
  - split; [apply StepFacts.schedule_wf_empty | constructor].
  - split; [now apply StepFacts.step_schedule_wf|].
    apply step_keys_canonical; [exact (proj1 Hwf) | exact Hk].
Qed.

End SlotFacts.

(** ** Further properties of the store operations *)

Section StoreProperties.
Import PyListFacts PyDictFacts ScheduleFacts TaskFacts StepFacts SlotFacts.
Local Open Scope string_scope.
Local Open Scope list_scope.

(** [unschedule_task] leaves the tasks alone and answers whether some
    slot held the id; afterwards no slot holds it, the schedule index is
    still the data model's, the slots that did not hold the id are as
    they were, and when the answer is False the store is unchanged. *)
Theorem unschedule_task_clears_id self task_id :
  schedule_wf (schedule self) ->
  let after := fst (unschedule_task self task_id) in
  tasks after = tasks self
  /\ (snd (unschedule_task self task_id) = true
      <-> exists time_slot, in_slot task_id time_slot self = true)
  /\ unscheduled task_id after
  /\ schedule_wf (schedule after)
  /\ (forall time_slot ids,
        In (time_slot, ids) (schedule self) ->
        PyList.contains task_id ids = false ->
        In (time_slot, ids) (schedule after))
  /\ (snd (unschedule_task self task_id) = false -> after = self).
Proof.
  intros Hwf after. pose proof (proj1 Hwf) as Hd.
  subst after. rewrite unschedule_task_eq by exact Hd.
  cbn [fst snd tasks schedule].
  split; [reflexivity|]. split; [now apply purged_flag|].
  split; [|split; [now apply schedule_wf_purged|split]].
  - intros k. unfold in_slot. cbn [schedule].
    destruct (PyDict.get k (flat_map (purged_entry task_id) (schedule self)))
      as [ids|] eqn:E; [|reflexivity].
    apply contains_false. eapply purged_gone; [exact Hwf|].
    eapply get_In, E.
  - intros k ids Hin Hc. now apply purged_keeps.
  - intros Hno. rewrite purged_unchanged; [now destruct self|].
    intros k ids Hin.
    destruct (PyList.contains task_id ids) eqn:Ec; [|reflexivity].
    rewrite <- Hno. symmetry. apply existsb_exists.
    now exists (k, ids).
Qed.

Lemma unschedule_task_clears_id_witness :
  let self :=
    run [OpSchedule 1 "08:00"; OpSchedule 2 "08:00"; OpSchedule 1 "09:00"] in
  schedule (fst (unschedule_task self 1)) = [("08:00", [2%Z])]
  /\ unscheduled 1 (fst (unschedule_task self 1)).
Proof.
  intros self.
  assert (Hwf : schedule_wf (schedule self))
    by (eapply reachable_schedule_wf, run_reachable).
  split; [reflexivity|].
  exact (proj1 (proj2 (proj2 (unschedule_task_clears_id self 1 Hwf)))).
Defined.

(** A second [unschedule_task] of the same id answers False and changes
    nothing. *)
Theorem unschedule_task_again_finds_nothing self task_id :
  schedule_wf (schedule self) ->
  unschedule_task (fst (unschedule_task self task_id)) task_id
  = (fst (unschedule_task self task_id), false).
Proof.
  intros Hwf. pose proof (proj1 Hwf) as Hd.
  rewrite (unschedule_task_eq self) by exact Hd. cbn [fst].
  assert (Hno : forall k ids,
             In (k, ids) (flat_map (purged_entry task_id) (schedule self)) ->
             PyList.contains task_id ids = false).
  { intros k ids Hin. apply contains_false. eapply purged_gone; eauto. }
  rewrite unschedule_task_eq
    by (cbn [schedule]; now apply purged_dict_wf).
  cbn [tasks schedule]. rewrite purged_unchanged by exact Hno.
  f_equal.
  destruct (existsb _ (flat_map (purged_entry task_id) (schedule self)))
    eqn:E; [|reflexivity].
  apply existsb_exists in E. destruct E as ([k ids] & Hin & Hc).
  cbn [snd] in Hc. now rewrite (Hno k ids Hin) in Hc.
Qed.

Lemma unschedule_task_again_finds_nothing_witness :
  let self := fst (unschedule_task
                     (run [OpSchedule 1 "08:00"; OpSchedule 1 "09:00"]) 1) in
  unschedule_task self 1 = (self, false).
Proof.
  intros self.
  apply (unschedule_task_again_finds_nothing
           (run [OpSchedule 1 "08:00"; OpSchedule 1 "09:00"]) 1).
  eapply reachable_schedule_wf, run_reachable.
Defined.

(** [schedule_task] a second time with the same id and time string
    gives the same answer and changes nothing: an id is not put twice in
    a slot. *)
Theorem schedule_task_again_changes_nothing self task_id time_str :
  schedule_task (fst (schedule_task self task_id time_str)) task_id time_str
  = schedule_task self task_id time_str.
Proof.
  rewrite !schedule_task_eq.
  destruct (Time.strptime time_str) as [t|]; [|reflexivity].
  cbn [fst tasks schedule]. now rewrite slot_insert_twice.
Qed.

(** [unschedule_task] undoes a successful [schedule_task] of an id that
    was in no slot: the store is the one before, the order of the slots
    and of their ids included. *)
Theorem schedule_then_unschedule_restores self task_id time_str :
  schedule_wf (schedule self) ->
  unscheduled task_id self ->
  snd (schedule_task self task_id time_str) = true ->
  unschedule_task (fst (schedule_task self task_id time_str)) task_id
  = (self, true).
Proof.
  intros Hwf Hno Hok. pose proof (proj1 Hwf) as Hd.
  pose proof (proj1 (unscheduled_entries _ _ Hd) Hno) as Hent.
  rewrite schedule_task_eq in *.
  destruct (Time.strptime time_str) as [t|]; [|discriminate].
  cbn [fst]. rewrite unschedule_task_eq
    by (cbn [schedule]; apply schedule_wf_insert; exact Hwf).
  cbn [tasks schedule]. rewrite purged_insert by assumption.
  f_equal; [now destruct self|].
  apply existsb_exists.
  destruct (slot_insert_holds task_id (Time.strftime t) (schedule self))
    as (ids & E & Hc).
  exists (Time.strftime t, ids). split; [eapply get_In, E | exact Hc].
Qed.

Lemma schedule_then_unschedule_restores_witness :
  let self :=
    run [OpAdd "t0" "a" "high" (Some "09:30"); OpAdd "t1" "b" "low" None] in
  unschedule_task (fst (schedule_task self 2 "9:30")) 2 = (self, true).
Proof.
  intros self.
  assert (Hwf : schedule_wf (schedule self))
    by (eapply reachable_schedule_wf, run_reachable).
  apply (schedule_then_unschedule_restores self 2 "9:30" Hwf).
  - apply (proj2 (unscheduled_entries 2 self (proj1 Hwf))).
    intros k ids Hin. vm_compute in Hin.
    destruct Hin as [E|[]]. injection E as <- <-. reflexivity.
  - reflexivity.
Defined.

(** [add_task] with a time string that does not parse adds the task all
    the same, in no slot, and returns its id: the failure of
    [schedule_task] is not passed on.  With a time string that parses it
    is [add_task] followed by [schedule_task] of the new id. *)
Theorem add_task_with_time now self t p time_str :
  time_str <> "" ->
  (Time.strptime time_str = None ->
   add_task now self t p (Some time_str) = add_task now self t p None)
  /\ (let '(added, task_id) := add_task now self t p None in
      add_task now self t p (Some time_str)
      = (fst (schedule_task added task_id time_str), task_id)).
Proof.
  intros Hne. rewrite !add_task_eq.
  assert (Ht : truthy (Some time_str) = Some time_str)
    by (destruct time_str; [congruence | reflexivity]).
  rewrite Ht. cbn [truthy]. split.
  - now intros ->.
  - rewrite schedule_task_eq. cbn [tasks schedule].
    now destruct (Time.strptime time_str).
Qed.

Lemma add_task_with_time_witness :
  add_task "t0" empty_store "a" "high" (Some "25:00")
  = add_task "t0" empty_store "a" "high" None.
Proof.
  refine (proj1 (add_task_with_time "t0" empty_store "a" "high" "25:00" _)
            eq_refl).
  discriminate.
Defined.

Lemma NoDup_map_of_nat l : NoDup l -> NoDup (map Z.of_nat l).
Proof.
  induction 1 as [|x l Hx Hl IH]; cbn [map]; constructor; [|exact IH].
  intros Hin. apply in_map_iff in Hin. destruct Hin as (y & E & Hy).
  apply Nat2Z.inj in E. now subst.
Qed.

Lemma seq_snoc n : seq 1 (S n) = seq 1 n ++ [S n].
Proof. rewrite seq_S. reflexivity. Qed.

(** As long as nothing is removed, the ids are the positions: the k-th
    task of the store has the id k, so no two tasks share an id. *)
Theorem ids_without_remove ops :
  no_remove ops = true ->
  map id (tasks (run ops))
  = map Z.of_nat (seq 1 (List.length (tasks (run ops))))
  /\ NoDup (map id (tasks (run ops))).
Proof.
  intros Hops.
  assert (Hids : map id (tasks (run ops))
                 = map Z.of_nat (seq 1 (List.length (tasks (run ops))))).
  { induction ops as [|o ops IH] using rev_ind; [reflexivity|].
    unfold no_remove in Hops. rewrite forallb_app in Hops.
    apply andb_true_iff in Hops. destruct Hops as [Hops Ho].
    specialize (IH Hops). rewrite run_snoc.
    destruct o as [now t p st|i|i|i ts|i]; cbn [step].
    - rewrite add_task_eq. cbn [fst tasks].
      rewrite length_app, map_app. cbn [List.length map new_task id].
      rewrite Nat.add_1_r, seq_snoc, map_app, IH. cbn [map].
      do 2 f_equal. lia.
    - discriminate.
    - unfold mark_complete.
      destruct (complete_first i (tasks (run ops))) as [l'|] eqn:E;
        [|exact IH].
      cbn [fst tasks]. rewrite (complete_first_ids _ _ _ E).
      rewrite IH. do 2 f_equal.
      rewrite <- (length_map id l'), (complete_first_ids _ _ _ E).
      now rewrite length_map.
    - rewrite schedule_task_eq. now destruct (Time.strptime ts).
    - unfold unschedule_task.
      now destruct (purge_slots i _ _ _). }
  split; [exact Hids|]. rewrite Hids.
  apply NoDup_map_of_nat, seq_NoDup.
Qed.

Lemma ids_without_remove_witness :
  map id (tasks (run [OpAdd "t0" "a" "high" None; OpComplete 1;
                      OpAdd "t1" "b" "low" (Some "09:30"); OpUnschedule 2;
                      OpAdd "t2" "c" "x" None]))
  = [1; 2; 3]%Z.
Proof.
  exact (proj1 (ids_without_remove
                  [OpAdd "t0" "a" "high" None; OpComplete 1;
                   OpAdd "t1" "b" "low" (Some "09:30"); OpUnschedule 2;
                   OpAdd "t2" "c" "x" None] eq_refl)).
Defined.

(** [mark_complete] answers whether a task has the id, and when one has,
    it is the first task of that id that is completed afterwards, in its
    place. *)
Theorem mark_complete_marks_first self task_id :
  snd (mark_complete self task_id) = has_task task_id self
  /\ (has_task task_id self = true ->
      exists pre t suf,
        tasks self = pre ++ t :: suf /\ id t = task_id
        /\ Forall (fun t' => id t' <> task_id) pre
        /\ tasks (fst (mark_complete self task_id))
           = pre ++ with_completed t :: suf
        /\ completed (with_completed t) = true).
Proof.
  unfold mark_complete, has_task.
  destruct (complete_first task_id (tasks self)) as [l'|] eqn:E.
  - apply complete_first_split in E.
    destruct E as (pre & t & suf & Hl & -> & Hid & Hpre).
    assert (Hhas : existsb (fun t0 => Z.eqb (id t0) task_id) (tasks self)
                   = true).
    { apply existsb_exists. exists t. split.
      - rewrite Hl. apply in_app_iff. right. now left.
      - now apply Z.eqb_eq. }
    split; [now rewrite Hhas|]. intros _.
    exists pre, t, suf. repeat split; auto.
  - assert (Hno : existsb (fun t0 => Z.eqb (id t0) task_id) (tasks self)
                  = false).
    { clear -E. induction (tasks self) as [|t l IH]; [reflexivity|].
      cbn [complete_first existsb] in *.
      destruct (Z.eqb (id t) task_id); [discriminate|].
      destruct (complete_first task_id l); [discriminate|]. now apply IH. }
    rewrite Hno. split; [reflexivity | discriminate].
Qed.

Lemma mark_complete_marks_first_witness :
  exists pre t suf,
    tasks (run [OpAdd "t0" "a" "high" None; OpAdd "t1" "b" "low" None])
    = pre ++ t :: suf
    /\ id t = 2%Z
    /\ Forall (fun t' => id t' <> 2%Z) pre
    /\ tasks (fst (mark_complete
                (run [OpAdd "t0" "a" "high" None; OpAdd "t1" "b" "low" None])
                2))
       = pre ++ with_completed t :: suf
    /\ completed (with_completed t) = true.
Proof.
  exact (proj2 (mark_complete_marks_first
                  (run [OpAdd "t0" "a" "high" None; OpAdd "t1" "b" "low" None])
                  2) eq_refl).
Defined.

(** In every store reached from the empty one, whatever the operations
    and their arguments, every slot has a key in two-digit form, which
    [strptime] reads and [strftime] writes back as it is. *)
Theorem reachable_slot_keys_canonical allowed self time_slot ids :
  reachable_by allowed self ->
  In (time_slot, ids) (schedule self) ->
  strict_HHMM time_slot = true
  /\ exists t, Time.strptime time_slot = Some t
               /\ Time.strftime t = time_slot.
Proof.
  intros Hr Hin. apply reachable_canonical in Hr. destruct Hr as [_ Hk].
  unfold keys_canonical in Hk. rewrite Forall_forall in Hk.
  assert (Hs : strict_HHMM time_slot = true)
    by (eapply Hk, In_keys, Hin).
  split; [exact Hs|]. now apply TimeFacts.strict_round_trip.
Qed.

Lemma reachable_slot_keys_canonical_witness :
  strict_HHMM "09:05" = true
  /\ exists t, Time.strptime "09:05" = Some t /\ Time.strftime t = "09:05".
Proof.
  apply (reachable_slot_keys_canonical any_op
           (run [OpSchedule 4 "9:5"]) "09:05" [4%Z]).
  - apply run_reachable.
  - left. reflexivity.
Defined.

End StoreProperties.

(** ** The display *)

Module SortFacts.

Ltac times :=
  unfold not_after, time_ltb in *;
  repeat match goal with
    | p : (Z * Z) * string |- _ => destruct p as [[? ?] ?]
    end;
  cbn [fst snd] in *;
  repeat match goal with
    | H : (_ || _) = true |- _ => apply orb_true_iff in H; destruct H
    | H : (_ || _) = false |- _ => apply orb_false_iff in H; destruct H
    | H : (_ && _) = true |- _ => apply andb_true_iff in H; destruct H
    | H : (_ && _) = false |- _ => apply andb_false_iff in H; destruct H
    | H : (_ <? _)%Z = true |- _ => apply Z.ltb_lt in H
    | H : (_ <? _)%Z = false |- _ => apply Z.ltb_ge in H
    | H : (_ =? _)%Z = true |- _ => apply Z.eqb_eq in H
    | H : (_ =? _)%Z = false |- _ => apply Z.eqb_neq in H
    end.

Lemma not_after_trans a b c : not_after a b -> not_after b c -> not_after a c.
Proof.
  intros H1 H2. times;
    apply orb_false_iff; split;
    try (apply Z.ltb_ge; lia);
    apply andb_false_iff;
    try (left; apply Z.eqb_neq; lia);
    try (right; apply Z.ltb_ge; lia).
Qed.

Lemma ltb_not_after a b : time_ltb (fst a) (fst b) = true -> not_after a b.
Proof.
  intros H. times;
    apply orb_false_iff; split;
    try (apply Z.ltb_ge; lia);
    apply andb_false_iff;
    try (left; apply Z.eqb_neq; lia);
    try (right; apply Z.ltb_ge; lia).
Qed.

Lemma insert_perm x l : Permutation (insert_by_time x l) (x :: l).
Proof.
  induction l as [|y l IH]; cbn [insert_by_time]; [reflexivity|].
  destruct (time_ltb (fst y) (fst x)); [|reflexivity].
  rewrite IH. apply perm_swap.
Qed.

Lemma sort_perm l : Permutation (fold_right insert_by_time [] l) l.
Proof.
  induction l as [|x l IH]; cbn [fold_right]; [reflexivity|].
  rewrite insert_perm. now constructor.
Qed.

Lemma insert_sorted x l :
  StronglySorted not_after l -> StronglySorted not_after (insert_by_time x l).
Proof.
  induction 1 as [|y l Hl IH Hy]; cbn [insert_by_time].
  - constructor; constructor.
  - destruct (time_ltb (fst y) (fst x)) eqn:E.
    + constructor; [exact IH|].
      rewrite Forall_forall in *. intros z Hz.
      apply (Permutation_in _ (insert_perm x l)) in Hz.
      destruct Hz as [<-|Hz]; [now apply ltb_not_after | now apply Hy].
    + constructor; [now constructor|].
      constructor; [exact E|].
      rewrite Forall_forall in *. intros z Hz.
      eapply not_after_trans; [exact E | now apply Hy].
Qed.

Lemma sort_sorted l : StronglySorted not_after (fold_right insert_by_time [] l).
Proof.
  induction l as [|x l IH]; cbn [fold_right]; [constructor|].
  now apply insert_sorted.
Qed.

(** What [traverse keyed] returns: the slots, each with its time. *)
Lemma traverse_keyed ks l :
  traverse keyed ks = Some l ->
  map snd l = ks
  /\ Forall (fun p => Time.strptime (snd p) = Some (fst p)) l.
Proof.
  revert l. induction ks as [|k ks IH]; cbn [traverse]; intros l.
  - intros [= <-]. split; [reflexivity | constructor].
  - unfold keyed at 1. destruct (Time.strptime k) as [t|] eqn:E;
      [|discriminate].
    destruct (traverse keyed ks) as [r|]; [|discriminate].
    intros [= <-]. destruct (IH r eq_refl) as [Hm Hf].
    split; [cbn [map snd]; now rewrite Hm | now constructor].
Qed.

(** It fails exactly when some slot is no time. *)
Lemma traverse_keyed_none ks :
  traverse keyed ks = None
  <-> Exists (fun k => Time.strptime k = None) ks.
Proof.
  induction ks as [|k ks IH]; cbn [traverse].
  - split; [discriminate | intros H; inversion H].
  - unfold keyed at 1. destruct (Time.strptime k) as [t|] eqn:E.
    + destruct (traverse keyed ks) as [r|].
      * split; [discriminate|]. intros Hex.
        inversion Hex as [? ? Hk|? ? Hks]; subst; [congruence|].
        apply IH in Hks. discriminate Hks.
      * split; [|reflexivity]. intros _. right. now apply IH.
    + split; [|reflexivity]. intros _. now left.
Qed.

Lemma sorted_slots ps :
  StronglySorted not_after ps ->
  Forall (fun p => Time.strptime (snd p) = Some (fst p)) ps ->
  StronglySorted (fun a b => slot_before a b = true) (map snd ps).
Proof.
  induction 1 as [|p ps Hs IH Hp]; intros Hf; cbn [map]; [constructor|].
  inversion Hf as [|? ? Hp0 Hf0]; subst.
  constructor; [now apply IH|].
  rewrite Forall_forall in *. intros k Hk.
  apply in_map_iff in Hk. destruct Hk as (q & <- & Hq).
  unfold slot_before. rewrite Hp0, (Hf0 q Hq).
  specialize (Hp q Hq). unfold not_after in Hp. now rewrite Hp.
Qed.

End SortFacts.

Section DisplayProperties.
Import PyListFacts PyDictFacts StepFacts SlotFacts SortFacts.
Local Open Scope string_scope.
Local Open Scope list_scope.

(** The time [view_tasks] shows beside a task is that of the first slot,
    in the order of the dict, that holds its id, even when later slots
    hold it too, and nothing is shown when no slot holds it. *)
Theorem scheduled_time_first_slot task_id sched :
  (forall pre time_slot ids suf,
      sched = pre ++ (time_slot, ids) :: suf ->
      PyList.contains task_id ids = true ->
      (forall k' ids', In (k', ids') pre ->
                       PyList.contains task_id ids' = false) ->
      scheduled_time task_id sched = String.append " @ " time_slot)
  /\ ((forall k ids, In (k, ids) sched ->
                     PyList.contains task_id ids = false) ->
      scheduled_time task_id sched = "").
Proof.
  split.
  - intros pre k ids suf -> Hc Hpre.
    induction pre as [|[k0 ids0] pre IH]; cbn [app scheduled_time].
    + now rewrite Hc.
    + rewrite (Hpre k0 ids0) by now left.
      apply IH. intros k' ids' Hin. apply (Hpre k'). now right.
  - induction sched as [|[k ids] sched IH]; intros Hno; [reflexivity|].
    cbn [scheduled_time]. rewrite (Hno k ids) by now left.
    apply IH. intros k' ids' Hin. apply (Hno k'). now right.
Qed.

Lemma scheduled_time_first_slot_witness :
  scheduled_time 1
    (schedule (run [OpSchedule 2 "12:00"; OpSchedule 1 "10:00";
                    OpSchedule 1 "08:00"]))
  = " @ 10:00".
Proof.
  apply (proj1 (scheduled_time_first_slot 1 _)
           [("12:00", [2%Z])] "10:00" [1%Z] [("08:00", [1%Z])]).
  - reflexivity.
  - reflexivity.
  - intros k' ids' [[= <- <-]|[]]. reflexivity.
Defined.

(** The symbol of a priority in the display: its own for high and low,
    and that of medium for medium and for every other text, capital
    letters included. *)
Theorem priority_symbol_default t :
  (priority t = "high" -> priority_symbol t = Glyph exclamation_mark)
  /\ (priority t = "low" -> priority_symbol t = Glyph white_bullet)
  /\ (priority t <> "high" -> priority t <> "low" ->
      priority_symbol t = Glyph bullet).
Proof.
  unfold priority_symbol, priority_symbols. cbn [PyDict.get].
  repeat split.
  - now intros ->.
  - now intros ->.
  - intros Hh Hl.
    destruct (String.eqb_spec "high" (priority t)); [congruence|].
    destruct (String.eqb_spec "medium" (priority t)); [reflexivity|].
    destruct (String.eqb_spec "low" (priority t)); [congruence|].
    reflexivity.
Qed.

Lemma priority_symbol_default_witness :
  priority_symbol (new_task "t0" empty_store "a" "High") = Glyph bullet.
Proof.
  refine (proj2 (proj2 (priority_symbol_default
                          (new_task "t0" empty_store "a" "High"))) _ _);
    discriminate.
Defined.

(** When every slot of the schedule is a time, [view_schedule] does not
    raise, and the slots it prints are the slots of the schedule, each
    once, from the earliest time to the latest. *)
Theorem view_schedule_sorted self :
  Forall (fun k => Time.strptime k <> None) (PyDict.keys (schedule self)) ->
  exists times,
    sorted_times (schedule self) = Some times
    /\ Permutation times (PyDict.keys (schedule self))
    /\ StronglySorted (fun a b => slot_before a b = true) times
    /\ snd (view_schedule self) = true
    /\ (schedule self <> [] ->
        fst (view_schedule self)
        = schedule_header
          :: flat_map (slot_lines self) times
          ++ [[Txt (String.append "===========================" newline)]]).
Proof.
  intros Hk. unfold view_schedule, sorted_times.
  destruct (traverse keyed (PyDict.keys (schedule self))) as [l|] eqn:E.
  - destruct (traverse_keyed _ _ E) as [Hm Hf].
    exists (map snd (fold_right insert_by_time [] l)).
    split; [reflexivity|]. split; [|split; [|split]].
    + rewrite <- Hm. apply Permutation_map, sort_perm.
    + apply sorted_slots; [apply sort_sorted|].
      eapply Permutation_Forall; [symmetry; apply sort_perm | exact Hf].
    + now destruct (schedule self).
    + intros Hne. destruct (schedule self); [congruence | reflexivity].
  - exfalso. apply traverse_keyed_none in E.
    rewrite Exists_exists in E. destruct E as (k & Hin & Hnone).
    rewrite Forall_forall in Hk. now apply (Hk k Hin).
Qed.

Lemma view_schedule_sorted_witness :
  exists times,
    sorted_times (schedule (run [OpSchedule 1 "13:30"; OpSchedule 2 "9:05";
                                 OpSchedule 3 "23:00"; OpSchedule 4 "00:10"]))
    = Some times
    /\ StronglySorted (fun a b => slot_before a b = true) times.
Proof.
  destruct (view_schedule_sorted
              (run [OpSchedule 1 "13:30"; OpSchedule 2 "9:05";
                    OpSchedule 3 "23:00"; OpSchedule 4 "00:10"]))
    as (times & E & _ & Hs & _).
  - repeat constructor; discriminate.
  - exists times. split; [exact E | exact Hs].
Defined.

(** [view_schedule] raises ValueError exactly when some slot of the
    schedule is not a time, and then the header is all it has printed. *)
Theorem view_schedule_bad_key self :
  (snd (view_schedule self) = false
   <-> Exists (fun k => Time.strptime k = None) (PyDict.keys (schedule self)))
  /\ (snd (view_schedule self) = false ->
      fst (view_schedule self) = [schedule_header]).
Proof.
  unfold view_schedule, sorted_times.
  destruct (schedule self) as [|e sched] eqn:Es.
  - split; [|discriminate]. split; [discriminate|].
    intros H. inversion H.
  - destruct (traverse keyed (PyDict.keys (e :: sched))) as [l|] eqn:E.
    + split; [|discriminate]. split; [discriminate|].
      intros Hex. apply traverse_keyed_none in Hex. congruence.
    + split; [|reflexivity]. split; [|reflexivity].
      intros _. now apply traverse_keyed_none.
Qed.

Lemma view_schedule_bad_key_witness :
  fst (view_schedule {| tasks := []; schedule := [("noon", [1%Z])] |})
  = [schedule_header].
Proof.
  exact (proj2 (view_schedule_bad_key
                  {| tasks := []; schedule := [("noon", [1%Z])] |}) eq_refl).
Defined.

(** Under a slot [view_schedule] prints, for each id, the line of the
    first task of that id, and no line for an id that no task has. *)
Theorem schedule_row_first_task task_id l :
  (forall pre t suf,
      l = pre ++ t :: suf -> id t = task_id ->
      Forall (fun t' => id t' <> task_id) pre ->
      schedule_row task_id l
      = [[Txt "  ["; status_of t; Txt "] "; Num task_id; Txt ". ";
          priority_symbol t; Txt " "; Txt (task t)]])
  /\ (existsb (fun t => Z.eqb (id t) task_id) l = false ->
      schedule_row task_id l = []).
Proof.
  split.
  - intros pre t suf -> Hid Hpre.
    induction Hpre as [|t0 pre H0 _ IH]; cbn [app schedule_row].
    + apply Z.eqb_eq in Hid. now rewrite Hid.
    + apply Z.eqb_neq in H0. now rewrite H0.
  - induction l as [|t l IH]; [reflexivity|].
    cbn [existsb schedule_row].
    destruct (Z.eqb (id t) task_id); [discriminate|]. exact IH.
Qed.

Lemma schedule_row_first_task_witness :
  schedule_row 99 (tasks (run [OpAdd "t0" "a" "high" None])) = [].
Proof.
  exact (proj2 (schedule_row_first_task 99
                  (tasks (run [OpAdd "t0" "a" "high" None]))) eq_refl).
Defined.

End DisplayProperties.

(** ** The shell *)

Module ShellFacts.
Import PyListFacts PyDictFacts ScheduleFacts StepFacts SlotFacts SortFacts.
Local Open Scope string_scope.
Local Open Scope list_scope.

(** Choice 1 of the menu, as operations of the store. *)
Lemma menu_add_steps now self t input time :
  menu_add now self t input time
  = match time with
    | Some time_str =>
        step (step self (OpAdd now t (menu_priority input) None))
             (OpSchedule (Z.of_nat (List.length (tasks self)) + 1) time_str)
    | None => step self (OpAdd now t (menu_priority input) None)
    end.
Proof.
  unfold menu_add. cbn [step]. rewrite add_task_eq.
  now destruct time.
Qed.

Lemma menu_priority_normal input :
  In (menu_priority input) ["high"; "medium"; "low"].
Proof.
  destruct (menu_priority_cases input) as [[Hin ->]|[_ ->]]; [exact Hin|].
  cbn. auto.
Qed.

Section Loop.
Context {blob : Type} `{JsonCodec blob}.
Variable py_int : string -> option Z.
Variable now : list string -> string.

(** What holds of the store when the loop starts and is kept by the
    operations of the menu holds of the store at each way the loop can
    end. *)
Lemma main_loop_ends (P : TodoWithScheduler -> Prop) (Q : ended -> Prop) :
  (forall self o, menu_op self o -> P self -> P (step self o)) ->
  (forall self, P self -> Q (EOFError self)) ->
  (forall self, P self -> Q (Exited (save_data self) self)) ->
  (forall self, P self -> snd (view_schedule self) = false ->
                Q (ValueError self)) ->
  forall inputs self, P self -> Q (main_loop py_int now inputs self).
Proof.
  intros Hstep Heof Hexit Hval inputs.
  assert (Hadd : forall now' self t input time,
             P self -> P (menu_add now' self t input time)).
  { intros now' self t input time HP. rewrite menu_add_steps.
    assert (P (step self (OpAdd now' t (menu_priority input) None))).
    { apply Hstep; [|exact HP]. split; [apply menu_priority_normal|reflexivity]. }
    destruct time; [apply Hstep; [exact I | assumption] | assumption]. }
  remember (List.length inputs) as n eqn:Hn.
  assert (Hle : List.length inputs <= n) by lia. clear Hn.
  revert inputs Hle.
  induction n as [|n IH]; intros inputs Hle self HP.
  - destruct inputs; [now apply Heof | cbn in Hle; lia].
  - destruct inputs as [|choice rest]; [now apply Heof|].
    cbn [List.length] in Hle. cbn [main_loop].
    destruct (String.eqb choice "1").
    { destruct rest as [|t [|p [|sn rest1]]]; try now apply Heof.
      cbn [List.length] in Hle.
      destruct (String.eqb (lower sn) "y").
      - destruct rest1 as [|ts rest2]; [now apply Heof|].
        cbn [List.length] in Hle. apply IH; [lia | now apply Hadd].
      - apply IH; [lia | now apply Hadd]. }
    destruct (String.eqb choice "2").
    { destruct rest as [|a rest1]; [now apply Heof|].
      cbn [List.length] in Hle.
      destruct (py_int a) as [i|]; apply IH; try lia; try assumption.
      now apply (Hstep self (OpRemove i)). }
    destruct (String.eqb choice "3").
    { destruct rest as [|a rest1]; [now apply Heof|].
      cbn [List.length] in Hle.
      destruct (py_int a) as [i|]; apply IH; try lia; try assumption.
      now apply (Hstep self (OpComplete i)). }
    destruct (String.eqb choice "4").
    { destruct rest as [|a rest1]; [now apply Heof|].
      cbn [List.length] in Hle.
      destruct (py_int a) as [i|]; [|apply IH; [lia | assumption]].
      destruct rest1 as [|ts rest2]; [now apply Heof|].
      cbn [List.length] in Hle. apply IH; [lia|].
      now apply (Hstep self (OpSchedule i ts)). }
    destruct (String.eqb choice "5").
    { destruct (snd (view_schedule self)) eqn:Ev; [|now apply Hval].
      destruct rest as [|a rest1]; [now apply Heof|].
      cbn [List.length] in Hle.
      destruct (py_int a) as [i|]; apply IH; try lia; try assumption.
      now apply (Hstep self (OpUnschedule i)). }
    destruct (String.eqb choice "6").
    { destruct rest as [|a rest1]; [now apply Heof|].
      cbn [List.length] in Hle. apply IH; [lia | assumption]. }
    destruct (String.eqb choice "7").
    { destruct (snd (view_schedule self)) eqn:Ev; [|now apply Hval].
      destruct rest as [|a rest1]; [now apply Heof|].
      cbn [List.length] in Hle. apply IH; [lia | assumption]. }
    destruct (String.eqb choice "8"); [now apply Hexit|].
    apply IH; [lia | assumption].
Qed.

End Loop.

(** [view_schedule] does not raise on a schedule with keys in two-digit
    form. *)
Lemma view_schedule_canonical self :
  keys_canonical (schedule self) -> snd (view_schedule self) = true.
Proof.
  intros Hk. unfold view_schedule, sorted_times.
  destruct (schedule self) as [|e sched] eqn:Es; [reflexivity|].
  destruct (traverse keyed (PyDict.keys (e :: sched))) as [l|] eqn:E;
    [reflexivity|].
  exfalso. apply traverse_keyed_none in E.
  rewrite Exists_exists in E. destruct E as (k & Hin & Hnone).
  unfold keys_canonical in Hk. rewrite Forall_forall in Hk.
  destruct (TimeFacts.strict_round_trip k (Hk k Hin)) as (t & Et & _).
  congruence.
Qed.

Lemma tasks_step_normal self o :
  menu_op self o -> Forall normal_priority (tasks self) ->
  Forall normal_priority (tasks (step self o)).
Proof.
  intros Hop Hn.
  destruct o as [now t p st|i|i|i ts|i]; cbn [step].
  - destruct Hop as [Hp _]. rewrite add_task_eq. cbn [fst tasks].
    apply Forall_app. split; [exact Hn|]. constructor; [exact Hp|constructor].
  - unfold remove_task.
    destruct (pop_first i (tasks self)) as [l'|] eqn:E; [|exact Hn].
    cbn [fst tasks]. apply TaskFacts.pop_first_split in E.
    destruct E as (pre & t & suf & Hl & -> & _).
    rewrite Hl in Hn. apply Forall_app in Hn. destruct Hn as [Hpre Hsuf].
    inversion Hsuf; subst. apply Forall_app. now split.
  - unfold mark_complete.
    destruct (complete_first i (tasks self)) as [l'|] eqn:E; [|exact Hn].
    cbn [fst tasks]. apply TaskFacts.complete_first_split in E.
    destruct E as (pre & t & suf & Hl & -> & _).
    rewrite Hl in Hn. apply Forall_app in Hn. destruct Hn as [Hpre Hsuf].
    inversion Hsuf; subst. apply Forall_app. split; [exact Hpre|].
    now constructor.
  - rewrite schedule_task_eq. now destruct (Time.strptime ts).
  - unfold unschedule_task. now destruct (purge_slots i _ _ _).
Qed.

(** The document of a store loads back as the store. *)
Lemma init_save_data {blob : Type} `{JsonCodec blob} self :
  codec_sound -> PyDict.dict_wf (schedule self) ->
  fst (init (Some (save_data self))) = Loaded self.
Proof.
  intros Hsound Hwf. unfold init, load_data, save_data.
  rewrite (Hsound _ (PersistenceFacts.store_document_wf self Hwf)).
  cbn [PyDict.get String.eqb Ascii.eqb Bool.eqb fst].
  rewrite PersistenceFacts.tasks_of_to_json,
    PersistenceFacts.schedule_of_to_json.
  now destruct self.
Qed.

End ShellFacts.

Section ShellProperties.
Import StepFacts SlotFacts ShellFacts.
Context {blob : Type} `{JsonCodec blob}.
Variable py_int : string -> option Z.
Variable now : list string -> string.
Local Open Scope string_scope.
Local Open Scope list_scope.

(** Whatever is typed, the store the loop of the menu ends with is the
    store it started with after a sequence of operations of the store,
    no more of them than lines were typed: the menu does nothing to the
    store but call [add_task], with a priority it has normalised and
    without a time, and the four other operations. *)
Theorem main_loop_runs_operations inputs self :
  exists ops,
    final_store (main_loop py_int now inputs self) = run_from self ops
    /\ Forall (menu_op self) ops
    /\ List.length ops <= List.length inputs.
Proof.
  cut (exists ops,
         final_store (main_loop py_int now inputs self) = run_from self ops
         /\ Forall (menu_op empty_store) ops
         /\ List.length ops <= List.length inputs).
  { intros (ops & E & Ho & Hl). exists ops.
    split; [exact E|]. split; [exact Ho | exact Hl]. }
  remember (List.length inputs) as n eqn:Hn.
  assert (Hle : List.length inputs <= n) by lia.
  rewrite Hn. clear Hn. revert inputs Hle self.
  assert (Hnone : forall (inputs : list string) (e : @ended blob) self,
             final_store e = self ->
             exists ops, final_store e = run_from self ops
                         /\ Forall (menu_op empty_store) ops
                         /\ List.length ops <= List.length inputs).
  { intros inputs e self E. exists []. split; [exact E|].
    split; [constructor | cbn; lia]. }
  assert (Hone : forall (inputs rest : list string) (e : @ended blob) self o,
             menu_op self o ->
             S (List.length rest) <= List.length inputs ->
             (exists ops, final_store e = run_from (step self o) ops
                          /\ Forall (menu_op empty_store) ops
                          /\ List.length ops <= List.length rest) ->
             exists ops, final_store e = run_from self ops
                         /\ Forall (menu_op empty_store) ops
                         /\ List.length ops <= List.length inputs).
  { intros inputs rest e self o Ho Hlen (ops & E & Hops & Hl).
    exists (o :: ops). split; [exact E|].
    split; [now constructor | cbn [List.length]; lia]. }
  induction n as [|n IH]; intros inputs Hle self.
  - destruct inputs; [now apply Hnone | cbn in Hle; lia].
  - destruct inputs as [|choice rest]; [now apply Hnone|].
    cbn [List.length] in Hle. cbn [main_loop].
    assert (Hskip : forall rest',
               List.length rest' <= n ->
               List.length rest' <= List.length (choice :: rest) ->
               exists ops,
                 final_store (main_loop py_int now rest' self)
                 = run_from self ops
                 /\ Forall (menu_op empty_store) ops
                 /\ List.length ops <= List.length (choice :: rest)).
    { intros rest' H1 H2. destruct (IH rest' H1 self) as (ops & E & Ho & Hl).
      exists ops. split; [exact E|]. split; [exact Ho | lia]. }
    destruct (String.eqb choice "1").
    { destruct rest as [|t [|p [|sn rest1]]]; try now apply Hnone.
      cbn [List.length] in Hle.
      destruct (String.eqb (lower sn) "y").
      - destruct rest1 as [|ts rest2]; [now apply Hnone|].
        cbn [List.length] in Hle. rewrite menu_add_steps.
        apply (Hone _ (ts :: rest2) _ self
                 (OpAdd (now rest2) t (menu_priority p) None)).
        + split; [apply menu_priority_normal | reflexivity].
        + cbn [List.length]. lia.
        + apply (Hone _ rest2 _ _
                   (OpSchedule (Z.of_nat (List.length (tasks self)) + 1) ts)).
          * exact I.
          * cbn [List.length]. lia.
          * apply IH. lia.
      - rewrite menu_add_steps.
        apply (Hone _ rest1 _ self
                 (OpAdd (now rest1) t (menu_priority p) None)).
        + split; [apply menu_priority_normal | reflexivity].
        + cbn [List.length]. lia.
        + apply IH. lia. }
    destruct (String.eqb choice "2").
    { destruct rest as [|a rest1]; [now apply Hnone|].
      cbn [List.length] in Hle.
      destruct (py_int a) as [i|].
      - apply (Hone _ rest1 _ self (OpRemove i));
          [exact I | cbn [List.length]; lia | apply IH; lia].
      - apply Hskip; cbn [List.length]; lia. }
    destruct (String.eqb choice "3").
    { destruct rest as [|a rest1]; [now apply Hnone|].
      cbn [List.length] in Hle.
      destruct (py_int a) as [i|].
      - apply (Hone _ rest1 _ self (OpComplete i));
          [exact I | cbn [List.length]; lia | apply IH; lia].
      - apply Hskip; cbn [List.length]; lia. }
    destruct (String.eqb choice "4").
    { destruct rest as [|a rest1]; [now apply Hnone|].
      cbn [List.length] in Hle.
      destruct (py_int a) as [i|];
        [|apply Hskip; cbn [List.length]; lia].
      destruct rest1 as [|ts rest2]; [now apply Hnone|].
      cbn [List.length] in Hle.
      apply (Hone _ rest2 _ self (OpSchedule i ts));
        [exact I | cbn [List.length]; lia | apply IH; lia]. }
    destruct (String.eqb choice "5").
    { destruct (snd (view_schedule self)); [|now apply Hnone].
      destruct rest as [|a rest1]; [now apply Hnone|].
      cbn [List.length] in Hle.
      destruct (py_int a) as [i|].
      - apply (Hone _ rest1 _ self (OpUnschedule i));
          [exact I | cbn [List.length]; lia | apply IH; lia].
      - apply Hskip; cbn [List.length]; lia. }
    destruct (String.eqb choice "6").
    { destruct rest as [|a rest1]; [now apply Hnone|].
      cbn [List.length] in Hle. apply Hskip; cbn [List.length]; lia. }
    destruct (String.eqb choice "7").
    { destruct (snd (view_schedule self)); [|now apply Hnone].
      destruct rest as [|a rest1]; [now apply Hnone|].
      cbn [List.length] in Hle. apply Hskip; cbn [List.length]; lia. }
    destruct (String.eqb choice "8"); [now apply Hnone|].
    apply Hskip; cbn [List.length]; lia.
Qed.

(** Every task the menu adds has the priority high, medium or low: if
    the tasks of the store have such priorities when the loop starts,
    they have when it ends, whatever is typed. *)
Theorem main_loop_priorities_normal inputs self :
  Forall normal_priority (tasks self) ->
  Forall normal_priority
    (tasks (final_store (main_loop py_int now inputs self))).
Proof.
  apply (main_loop_ends py_int now
           (fun s => Forall normal_priority (tasks s))
           (fun e => Forall normal_priority (tasks (final_store e)))); auto.
  intros s o. apply tasks_step_normal.
Qed.

(** Started on a store reached by operations of the store, the empty
    one for instance, the loop never ends with the ValueError of
    [view_schedule], whatever is typed: it ends saved by choice 8 or for
    want of input. *)
Theorem main_loop_never_ValueError allowed inputs self :
  reachable_by allowed self ->
  forall self', main_loop py_int now inputs self <> ValueError self'.
Proof.
  intros Hr.
  apply (main_loop_ends py_int now
           (fun s => schedule_wf (schedule s) /\ keys_canonical (schedule s))
           (fun e => forall self', e <> ValueError self')).
  - intros s o _ [Hwf Hk]. split; [now apply step_schedule_wf|].
    apply step_keys_canonical; [exact (proj1 Hwf) | exact Hk].
  - discriminate.
  - discriminate.
  - intros s [_ Hk] Hv. rewrite view_schedule_canonical in Hv by exact Hk.
    discriminate.
  - eapply reachable_canonical, Hr.
Qed.

(** What choice 8 saves is what the next start loads: when the loop,
    started on a store reached by operations, exits with the contents of
    the file, the constructor run on these contents has the store the
    loop ended with (with a [json] module that loads back what it
    dumps). *)
Theorem main_loop_exit_then_restart allowed inputs self file self' :
  codec_sound ->
  reachable_by allowed self ->
  main_loop py_int now inputs self = Exited file self' ->
  fst (init (Some file)) = Loaded self'.
Proof.
  intros Hsound Hr.
  assert (Hend :
    (fun e => forall f s, e = Exited f s ->
                          fst (init (Some f)) = Loaded s)
      (main_loop py_int now inputs self)).
  { apply (main_loop_ends py_int now
             (fun s => schedule_wf (schedule s))).
    - intros s o _. apply step_schedule_wf.
    - discriminate.
    - intros s Hwf f s0 [= <- <-].
      apply init_save_data; [exact Hsound | exact (proj1 Hwf)].
    - discriminate.
    - eapply reachable_schedule_wf, Hr. }
  intros E. now apply Hend.
Qed.

(** The program on its own files: started without a file, or on
    contents the [json] module rejects, or on what [save_data] wrote for
    a store reached by operations, the constructor returns and the loop
    runs and never ends with ValueError, whatever is typed (with a [json]
    module that loads back what it dumps). *)
Theorem main_runs_on_own_files allowed file inputs :
  codec_sound ->
  (file = None
   \/ (exists b, file = Some b /\ json_load b = None)
   \/ (exists self, reachable_by allowed self
                     /\ file = Some (save_data self))) ->
  exists e,
    main py_int now file inputs = Started e
    /\ forall self', e <> ValueError self'.
Proof.
  intros Hsound Hfile.
  assert (Hstart : exists self,
             fst (init file) = Loaded self
             /\ schedule_wf (schedule self)
             /\ keys_canonical (schedule self)).
  { destruct Hfile as [->|[(b & -> & Eb)|(self & Hr & ->)]].
    - exists empty_store. split; [reflexivity|].
      split; [apply schedule_wf_empty | constructor].
    - exists empty_store. unfold init, load_data. rewrite Eb.
      split; [reflexivity|].
      split; [apply schedule_wf_empty | constructor].
    - exists self. pose proof (reachable_canonical _ _ Hr) as [Hwf Hk].
      split; [|now split].
      apply init_save_data; [exact Hsound | exact (proj1 Hwf)]. }
  destruct Hstart as (self & Ei & Hwf & Hk).
  exists (main_loop py_int now inputs self). unfold main. rewrite Ei.
  split; [reflexivity|].
  apply (main_loop_ends py_int now
           (fun s => schedule_wf (schedule s) /\ keys_canonical (schedule s))
           (fun e => forall self', e <> ValueError self')).
  - intros s o _ [Hwf' Hk']. split; [now apply step_schedule_wf|].
    apply step_keys_canonical; [exact (proj1 Hwf') | exact Hk'].
  - discriminate.
  - discriminate.
  - intros s [_ Hk'] Hv. rewrite view_schedule_canonical in Hv by exact Hk'.
    discriminate.
  - now split.
Qed.

End ShellProperties.

Section ShellWitnesses.
Import JsonText StepFacts.
Local Open Scope string_scope.
Local Open Scope list_scope.

Lemma main_loop_priorities_normal_witness :
  Forall normal_priority
    (tasks (final_store
       (main_loop (blob := string) (fun _ => None) (fun _ => "t0")
          ["1"; "a"; "Urgent"; "n"; "1"; "b"; "LOW"; "n"] empty_store))).
Proof.
  apply (main_loop_priorities_normal (blob := string)).
  constructor.
Defined.

Lemma main_loop_never_ValueError_witness :
  main_loop (blob := string) (fun _ => Some 1%Z) (fun _ => "t0")
    ["4"; "1"; "7:5"; "7"; ""; "5"; "1"] empty_store
  <> ValueError empty_store.
Proof.
  apply (main_loop_never_ValueError (blob := string)
           (fun _ => Some 1%Z) (fun _ => "t0") any_op).
  apply reach_empty.
Defined.

Lemma main_loop_exit_then_restart_witness :
  let ended :=
    main_loop (blob := string) (fun _ => Some 1%Z) (fun _ => "t0")
      ["1"; "a"; "HIGH"; "y"; "9:30"; "3"; "1"; "8"] empty_store in
  match ended with
  | Exited file self' => fst (init (Some file)) = Loaded self'
  | _ => False
  end.
Proof.
  cbv zeta.
  destruct (main_loop (blob := string) (fun _ => Some 1%Z) (fun _ => "t0")
              ["1"; "a"; "HIGH"; "y"; "9:30"; "3"; "1"; "8"] empty_store)
    as [file self'| |] eqn:E; try discriminate E.
  apply (main_loop_exit_then_restart (blob := string) (fun _ => Some 1%Z)
           (fun _ => "t0") any_op
           ["1"; "a"; "HIGH"; "y"; "9:30"; "3"; "1"; "8"] empty_store).
  - exact JsonTextFacts.text_codec_sound.
  - apply reach_empty.
  - exact E.
Defined.

Lemma main_runs_on_own_files_witness :
  exists e,
    main (blob := string) (fun _ => Some 1%Z) (fun _ => "t0")
      (Some (save_data (run [OpAdd "t0" "a" "high" (Some "9:30")])))
      ["7"; ""; "5"; "1"; "8"]
    = Started e
    /\ forall self', e <> ValueError self'.
Proof.
  apply (main_runs_on_own_files (blob := string)
           (fun _ => Some 1%Z) (fun _ => "t0") any_op).
  - exact JsonTextFacts.text_codec_sound.
  - right. right. exists (run [OpAdd "t0" "a" "high" (Some "9:30")]).
    split; [apply run_reachable | reflexivity].
Defined.

End ShellWitnesses.

(** ** The slot after [schedule_task], and a file that is no object *)

Section MoreProperties.
Import PyListFacts PyDictFacts ScheduleFacts StepFacts JsonText.
Local Open Scope string_scope.
Local Open Scope list_scope.

(** A successful [schedule_task] puts the id at the end of the slot of
    the time, after the ids that are there and in their order, in a new
    slot when there is none; it leaves the slot as it is when the id is
    in it, and it leaves the tasks alone. *)
Theorem schedule_task_appends self task_id time_str t :
  Time.strptime time_str = Some t ->
  let after := fst (schedule_task self task_id time_str) in
  let old := match PyDict.get (Time.strftime t) (schedule self) with
             | Some ids => ids
             | None => []
             end in
  PyDict.get (Time.strftime t) (schedule after)
  = Some (if PyList.contains task_id old then old else old ++ [task_id])
  /\ tasks after = tasks self.
Proof.
  intros E after old. subst after old. rewrite schedule_task_eq, E.
  cbn [fst tasks schedule]. split; [|reflexivity].
  unfold slot_insert.
  destruct (PyDict.get (Time.strftime t) (schedule self)) as [ids|] eqn:Eg.
  - destruct (PyList.contains task_id ids); [exact Eg|].
    apply get_set_same.
  - cbn [PyList.contains app]. rewrite <- (set_new _ _ _ Eg).
    apply get_set_same.
Qed.

Lemma schedule_task_appends_witness :
  PyDict.get "09:30"
    (schedule (fst (schedule_task
                      (run [OpSchedule 1 "09:30"; OpSchedule 2 "9:30"])
                      3 "09:30")))
  = Some [1; 2; 3]%Z.
Proof.
  exact (proj1 (schedule_task_appends
                  (run [OpSchedule 1 "09:30"; OpSchedule 2 "9:30"])
                  3 "09:30" (9, 30)%Z eq_refl)).
Defined.

Lemma load_data_not_object_witness :
  load_data (blob := string) empty_store (Some "[1,2]") = (AttributeError, []).
Proof.
  apply (load_data_not_object (blob := string) empty_store "[1,2]"
           (JArr [JInt 1; JInt 2])).
  - reflexivity.
  - discriminate.
Defined.

End MoreProperties.
